(** * snap-sync-cleanup: retention of mirrored snapper snapshots

    A shallow embedding of [snap-sync-cleanup.py] and the properties of its
    retention loop, its snapshot deleter, its enumerator and its
    latest-marker parser.

    Layout:
    - [Py]: the parts of Python's [str], [int] and [pathlib.PosixPath] the
      script calls, written out on Rocq strings;
    - the environment the script runs in (file system, subprocesses) as
      oracles, and a small monad threading the trace of effects;
    - the script's functions, under their own names;
    - the theorems. *)

From Stdlib Require Import ZArith List String Ascii Bool Lia Permutation Sorted.
Import ListNotations.
Local Open Scope string_scope.
Local Open Scope Z_scope.

Set Implicit Arguments.

(** ** Python library functions used by the script *)

Module Py.

(** Characters are code points U+0000..U+00FF (Rocq's [ascii]); text with
    code points above that range is outside this model. *)
Definition code (c : ascii) : N := N_of_ascii c.

Definition in_range (lo hi : N) (c : ascii) : bool :=
  (N.leb lo (code c) && N.leb (code c) hi)%bool.

(** [str.isspace], the set [str.strip()] removes: TAB..CR, FS..US, SPACE,
    NEL and NBSP. *)
Definition isspace (c : ascii) : bool :=
  (in_range 9 13 c || in_range 28 31 c || N.eqb (code c) 32
   || N.eqb (code c) 133 || N.eqb (code c) 160)%bool.

(** The blanks [int()] skips around a literal: C's [isspace] on ASCII
    (TAB..CR and SPACE; FS..US are not skipped) and NEL, NBSP. *)
Definition int_space (c : ascii) : bool :=
  (in_range 9 13 c || N.eqb (code c) 32
   || N.eqb (code c) 133 || N.eqb (code c) 160)%bool.

(** Line boundaries of [str.splitlines()]: LF, CR (CR LF counts once), VT,
    FF, FS, GS, RS, NEL. *)
Definition is_linebreak (c : ascii) : bool :=
  (in_range 10 13 c || in_range 28 30 c || N.eqb (code c) 133)%bool.

Definition is_digit (c : ascii) : bool := in_range 48 57 c.

Definition digit_value (c : ascii) : Z := Z.of_N (code c) - 48.

Fixpoint lstrip_by (f : ascii -> bool) (s : string) : string :=
  match s with
  | EmptyString => EmptyString
  | String c s' => if f c then lstrip_by f s' else s
  end.

Fixpoint rstrip_by (f : ascii -> bool) (s : string) : string :=
  match s with
  | EmptyString => EmptyString
  | String c s' =>
      match rstrip_by f s' with
      | EmptyString => if f c then EmptyString else String c EmptyString
      | r => String c r
      end
  end.

(** [s.strip()] *)
Definition strip (s : string) : string := rstrip_by isspace (lstrip_by isspace s).

(** [s.splitlines()]: the lines without their terminators; a final line
    without terminator is kept unless it is empty. *)
Fixpoint splitlines (s : string) : list string :=
  match s with
  | EmptyString => []
  | String c s' =>
      if is_linebreak c then
        match s' with
        | String c' s'' =>
            if (N.eqb (code c) 13 && N.eqb (code c') 10)%bool
            then EmptyString :: splitlines s''
            else EmptyString :: splitlines s'
        | EmptyString => [EmptyString]
        end
      else
        match splitlines s' with
        | [] => [String c EmptyString]
        | l :: ls => String c l :: ls
        end
  end.

(** [s.split(" ")[0]]: the characters before the first SPACE. *)
Fixpoint split_space_head (s : string) : string :=
  match s with
  | EmptyString => EmptyString
  | String c s' =>
      if N.eqb (code c) 32 then EmptyString else String c (split_space_head s')
  end.

Fixpoint startswith (p s : string) : bool :=
  match p, s with
  | EmptyString, _ => true
  | String _ _, EmptyString => false
  | String a p', String b s' => (Ascii.eqb a b && startswith p' s')%bool
  end.

(** [p in s] on strings. *)
Fixpoint contains (p s : string) : bool :=
  (startswith p s ||
   match s with
   | EmptyString => false
   | String _ s' => contains p s'
   end)%bool.

(** The digits of an [int()] literal, single underscores allowed between
    two digits only. [prev_digit] tells whether the character before was
    a digit. *)
Fixpoint int_digits (acc : Z) (prev_digit : bool) (s : string) : option Z :=
  match s with
  | EmptyString => if prev_digit then Some acc else None
  | String c s' =>
      if is_digit c then int_digits (10 * acc + digit_value c) true s'
      else if N.eqb (code c) 95 then
        if prev_digit then int_digits acc false s' else None
      else None
  end.

(** [int(s)] for a [str] in base 10; [None] stands for [ValueError].
    Blanks around the literal, one optional sign, then the digits.
    (The limit of 4300 digits of Python 3.11 is not modelled.) *)
Definition int (s : string) : option Z :=
  match rstrip_by int_space (lstrip_by int_space s) with
  | String "+" ds => int_digits 0 false ds
  | String "-" ds => option_map Z.opp (int_digits 0 false ds)
  | ds => int_digits 0 false ds
  end.

(** *** [pathlib.PosixPath] *)

(** The root of a POSIX path: none, ["/"], or exactly two slashes, which
    pathlib keeps apart from one. *)
Inductive root_kind : Type := NoRoot | Slash | Slash2.

Record PosixPath : Type := mkPath { root : root_kind; parts : list string }.

Definition root_eqb (a b : root_kind) : bool :=
  match a, b with
  | NoRoot, NoRoot | Slash, Slash | Slash2, Slash2 => true
  | _, _ => false
  end.

Fixpoint parts_eqb (a b : list string) : bool :=
  match a, b with
  | [], [] => true
  | x :: a', y :: b' => (String.eqb x y && parts_eqb a' b')%bool
  | _, _ => false
  end.

(** [p == q] *)
Definition path_eqb (p q : PosixPath) : bool :=
  (root_eqb (root p) (root q) && parts_eqb (parts p) (parts q))%bool.

Definition is_slash (c : ascii) : bool := N.eqb (code c) 47.

(** [rel.split("/")] *)
Fixpoint split_sep (s : string) : list string :=
  match s with
  | EmptyString => [EmptyString]
  | String c s' =>
      if is_slash c then EmptyString :: split_sep s'
      else match split_sep s' with
           | [] => [String c EmptyString]
           | x :: xs => String c x :: xs
           end
  end.

Definition keep_component (x : string) : bool :=
  negb (String.eqb x EmptyString || String.eqb x ".")%bool.

(** [splitroot]: the root of one segment and what follows it. *)
Definition splitroot (seg : string) : root_kind * string :=
  match seg with
  | String c rest =>
      if is_slash c then
        let stripped := lstrip_by is_slash rest in
        if Nat.eqb (String.length seg - String.length stripped) 2
        then (Slash2, stripped) else (Slash, stripped)
      else (NoRoot, seg)
  | EmptyString => (NoRoot, seg)
  end.

(** [PosixPath(seg1, seg2, ...)]: a rooted segment discards what is before it;
    empty and ["."] components are dropped. *)
Fixpoint from_segments (segs : list string) : PosixPath :=
  match segs with
  | [] => mkPath NoRoot []
  | seg :: rest =>
      let later := from_segments rest in
      match root later with
      | NoRoot =>
          let (r, rel) := splitroot seg in
          mkPath r (filter keep_component (split_sep rel) ++ parts later)
      | _ => later
      end
  end.

(** [p.is_absolute()] *)
Definition is_absolute (p : PosixPath) : bool :=
  match root p with NoRoot => false | _ => true end.

(** [p.joinpath(name)] and the children [iterdir] yields, for a [name]
    that is a single component. *)
Definition child (p : PosixPath) (name : string) : PosixPath :=
  mkPath (root p) (parts p ++ [name]).

(** [p.name]: the last component, empty for a bare root. *)
Definition name (p : PosixPath) : string := last (parts p) EmptyString.

(** [p.absolute()] with [cwd] the string [os.getcwd()] returns: no
    normalisation and no symbolic link is followed. *)
Definition absolute (cwd : string) (p : PosixPath) : PosixPath :=
  if is_absolute p then p
  else let c := from_segments [cwd] in mkPath (root c) (parts c ++ parts p).

Fixpoint join_sep (l : list string) : string :=
  match l with
  | [] => EmptyString
  | [x] => x
  | x :: l' => x ++ "/" ++ join_sep l'
  end.

(** [str(p)] *)
Definition to_str (p : PosixPath) : string :=
  match root p, parts p with
  | NoRoot, [] => "."
  | NoRoot, l => join_sep l
  | Slash, l => "/" ++ join_sep l
  | Slash2, l => "//" ++ join_sep l
  end.

(** [PosixPath("/")] *)
Definition root_path : PosixPath := mkPath Slash [].

End Py.

Import Py.

(** ** Effects: log records, subprocesses, the file system *)

Inductive level : Type := DEBUG | INFO | WARNING | ERROR.

(** [logger] is the script's own logger; the calls written
    [logging.warning(...)] go to the root logger instead. *)
Inductive logger_id : Type := AppLogger | RootLogger.

(** One constructor per message the script formats. *)
Inductive message : Type :=
| MsgMaxKeepZero
| MsgLatest (latest : option Z)
| MsgSnapshotList (nums : list Z)
| MsgNoPermissions (config : string)
| MsgSnapperFailed (config : string)
| MsgExternal (text : string)
| MsgRootNotFound (p : PosixPath)
| MsgIgnoreNonDir (p : PosixPath)
| MsgIgnoreNonNum (p : PosixPath)
| MsgFailedSubvolume (p : PosixPath)
| MsgFailedOuterDir (p : PosixPath)
| MsgException
| MsgSkipLatest (num : Z)
| MsgSkipRoot (p : PosixPath)
| MsgDeleted (num : Z)
| MsgSuccessfulDeletes (n : Z)
| MsgDeleteAttempts (n : Z)
| MsgTotal (n : Z).

(** An element of an argv list: a string or a path object. *)
Inductive arg : Type := ArgStr (s : string) | ArgPath (p : PosixPath).

Inductive event : Type :=
| EvLog (lg : logger_id) (lvl : level) (m : message)
| EvRun (capture_output : bool) (argv : list arg)
| EvRmtree (path : string).

(** The effects so far, newest first. *)
Definition trace : Type := list event.

(** What the operating system answers to [subprocess.run]: the program
    could not be started, or it ran and exited. *)
Inductive proc_answer : Type :=
| SpawnError
| Exited (returncode : Z) (out err : string).

(** The world around the script. The directory tree is read before the
    first deletion only, so its queries do not depend on the trace; the
    answers to subprocesses and removals may depend on all that happened
    before. *)
Record Env : Type := mkEnv {
  getcwd : string;
  path_exists : PosixPath -> bool;
  path_is_dir : PosixPath -> bool;
  listdir : PosixPath -> option (list string);
  run_process : trace -> list arg -> proc_answer;
  rmtree_ok : trace -> string -> bool
}.

Inductive exn : Type := AssertionError | AttributeError | OSError.

(** How a piece of the script ends: with a value, in [exit(code)], or in
    an exception nobody caught. *)
Inductive outcome (A : Type) : Type :=
| Ret (a : A)
| Exit (code : Z)
| Raise (e : exn).
Arguments Ret {A} a.
Arguments Exit {A} code.
Arguments Raise {A} e.

Definition M (A : Type) : Type := trace -> outcome A * trace.

Definition ret {A} (a : A) : M A := fun t => (Ret a, t).

Definition bind {A B} (m : M A) (f : A -> M B) : M B :=
  fun t =>
    match m t with
    | (Ret a, t') => f a t'
    | (Exit c, t') => (Exit c, t')
    | (Raise e, t') => (Raise e, t')
    end.

Definition emit (e : event) : M unit := fun t => (Ret tt, e :: t).
Definition exit_ {A} (code : Z) : M A := fun t => (Exit code, t).
Definition raise {A} (e : exn) : M A := fun t => (Raise e, t).

Declare Scope py_scope.
Delimit Scope py_scope with py.
Notation "x <- m ;; k" := (bind m (fun x => k))
  (at level 61, m at next level, right associativity) : py_scope.
Notation "m ;; k" := (bind m (fun _ => k))
  (at level 61, right associativity) : py_scope.
Local Open Scope py_scope.

(** The status the shell sees. *)
Definition exit_status (o : outcome unit) : Z :=
  match o with
  | Ret _ => 0
  | Exit c => c
  | Raise _ => 1
  end.

Record CompletedProcess : Type := mkCompleted {
  returncode : Z;
  stdout : option string;
  stderr : option string
}.

Definition snapshot : Type := (Z * PosixPath)%type.

(** [snapshots.sort(key=lambda x: x[0])]: a stable sort on the number. *)
Fixpoint insert_by_num (x : snapshot) (l : list snapshot) : list snapshot :=
  match l with
  | [] => [x]
  | y :: l' => if fst x <=? fst y then x :: l else y :: insert_by_num x l'
  end.

Definition sort_by_num (l : list snapshot) : list snapshot :=
  fold_right insert_by_num [] l.

Definition marker : string := "latest incremental backup".

(** Lines 106-117, on the lines already reversed. *)
Fixpoint scan_latest (lines : list string) : option Z :=
  match lines with
  | [] => None
  | line :: rest =>
      if negb (contains marker line) then scan_latest rest
      else match Py.int (split_space_head line) with
           | Some num => Some num
           | None => scan_latest rest
           end
  end.

(** ** The script *)

Section Script.

Variable env : Env.

Definition log (lg : logger_id) (lvl : level) (m : message) : M unit :=
  emit (EvLog lg lvl m).

(** [subprocess.run(argv, capture_output=...)]: the output is kept only
    when capture was asked for, else both attributes are [None]. *)
Definition subprocess_run (capture_output : bool) (argv : list arg)
  : M CompletedProcess :=
  fun t =>
    match run_process env t argv with
    | SpawnError => (Raise OSError, EvRun capture_output argv :: t)
    | Exited rc out err =>
        (Ret (if capture_output
              then mkCompleted rc (Some out) (Some err)
              else mkCompleted rc None None),
         EvRun capture_output argv :: t)
    end.

(** [x.strip()] where [x] may be [None]. *)
Definition strip_attr (x : option string) : M string :=
  match x with
  | Some s => ret (strip s)
  | None => raise AttributeError
  end.

(** Captured output arrives here as text or as [None]; the [bytes]
    branches only decode, and text stands for the decoded output. *)
Definition log_external_output (stdout stderr : option string) (log_level : level)
  : M unit :=
  stdout <- strip_attr stdout ;;
  stderr <- strip_attr stderr ;;
  (if String.eqb stderr "" then ret tt
   else log AppLogger log_level (MsgExternal stderr)) ;;
  (if String.eqb stdout "" then ret tt
   else log AppLogger log_level (MsgExternal stdout)).

Definition get_latest_snapshot_num (config : string) : M (option Z) :=
  snapper <- subprocess_run true
               [ArgStr "snapper"; ArgStr "-c"; ArgStr config; ArgStr "list";
                ArgStr "--columns"; ArgStr "number,description"] ;;
  snapper_stdout <- strip_attr (stdout snapper) ;;
  if negb (returncode snapper =? 0) then
    snapper_stderr <- strip_attr (stderr snapper) ;;
    (if contains "No permissions" snapper_stderr
     then log AppLogger ERROR (MsgNoPermissions config)
     else log AppLogger ERROR (MsgSnapperFailed config)) ;;
    log_external_output (Some snapper_stdout) (Some snapper_stderr) DEBUG ;;
    exit_ 1
  else
    ret (scan_latest (rev (splitlines snapper_stdout))).

Definition get_snapshot_root_path (remote config : string) : M PosixPath :=
  let path := absolute (getcwd env) (from_segments [remote; config]) in
  if (negb (path_exists env path) || negb (path_is_dir env path))%bool then
    log AppLogger ERROR (MsgRootNotFound path) ;;
    exit_ 1
  else ret path.

(** The body of the [for child in path.iterdir()] loop, over the entry
    names. *)
Fixpoint get_snapshots_loop (path : PosixPath) (names : list string)
         (snapshots : list snapshot) : M (list snapshot) :=
  match names with
  | [] => ret snapshots
  | entry :: names' =>
      let child := Py.child path entry in
      if negb (path_is_dir env child) then
        log AppLogger DEBUG (MsgIgnoreNonDir child) ;;
        get_snapshots_loop path names' snapshots
      else
        match Py.int (name child) with
        | None =>
            log AppLogger DEBUG (MsgIgnoreNonNum child) ;;
            get_snapshots_loop path names' snapshots
        | Some num =>
            get_snapshots_loop path names' (snapshots ++ [(num, child)])
        end
  end.

Definition get_snapshots (path : PosixPath) : M (list snapshot) :=
  match listdir env path with
  | None => raise OSError
  | Some names => get_snapshots_loop path names []
  end.

Definition delete_snapshot (path : PosixPath) : M bool :=
  if negb (is_absolute path) then raise AssertionError
  else
    let subvolume_path := absolute (getcwd env) (child path "subvolume") in
    delete_result <- subprocess_run false
                       [ArgStr "btrfs subvolume delete"; ArgPath subvolume_path] ;;
    if negb (returncode delete_result =? 0) then
      log AppLogger ERROR (MsgFailedSubvolume subvolume_path) ;;
      log_external_output (stdout delete_result) (stderr delete_result) DEBUG ;;
      ret false
    else
      fun t =>
        if rmtree_ok env t (to_str path)
        then (Ret true, EvRmtree (to_str path) :: t)
        else (log RootLogger WARNING (MsgFailedOuterDir path) ;;
              log AppLogger DEBUG MsgException ;;
              ret false) (EvRmtree (to_str path) :: t).

(** [num == latest_backup_num], with [latest_backup_num] an [int] or
    [None]. *)
Definition num_is_latest (num : Z) (latest_backup_num : option Z) : bool :=
  match latest_backup_num with
  | Some l => num =? l
  | None => false
  end.

(** The [for (num, path) in snapshots] loop of lines 233-250. [total] is
    [len(snapshots)] of the whole list; the two counters are the loop's
    variables, returned when the loop ends or breaks. *)
Fixpoint retention_loop (total max_keep : Z) (latest_backup_num : option Z)
         (delete_count delete_attempts : Z) (rest : list snapshot)
  : M (Z * Z) :=
  match rest with
  | [] => ret (delete_count, delete_attempts)
  | (num, path) :: rest' =>
      if total - delete_attempts <=? max_keep then
        ret (delete_count, delete_attempts)
      else if (num_is_latest num latest_backup_num && (max_keep >? 0))%bool then
        log AppLogger DEBUG (MsgSkipLatest num) ;;
        retention_loop total max_keep latest_backup_num
                       delete_count delete_attempts rest'
      else if path_eqb path root_path then
        log RootLogger WARNING (MsgSkipRoot path) ;;
        retention_loop total max_keep latest_backup_num
                       delete_count delete_attempts rest'
      else
        let delete_attempts := 0 in
        deleted <- delete_snapshot path ;;
        if deleted then
          log AppLogger INFO (MsgDeleted num) ;;
          retention_loop total max_keep latest_backup_num
                         (delete_count + 1) delete_attempts rest'
        else
          retention_loop total max_keep latest_backup_num
                         delete_count delete_attempts rest'
  end.

(** Lines 231-258: the loop, the summary and the exit check. *)
Definition retention (max_keep : Z) (latest_backup_num : option Z)
           (snapshots : list snapshot) : M unit :=
  let total := Z.of_nat (List.length snapshots) in
  counters <- retention_loop total max_keep latest_backup_num 0 0 snapshots ;;
  let (delete_count, delete_attempts) := counters in
  log AppLogger INFO (MsgSuccessfulDeletes delete_count) ;;
  log AppLogger INFO (MsgDeleteAttempts delete_attempts) ;;
  log AppLogger INFO (MsgTotal total) ;;
  if delete_attempts >? delete_count then exit_ 1 else ret tt.

(** The script from line 209 on, with the parsed arguments (argument
    parsing and the logging set-up come before and are left out). *)
Definition main (config remote : string) (max_keep : Z) : M unit :=
  if negb (max_keep >=? 0) then raise AssertionError
  else
    (if max_keep =? 0 then log RootLogger WARNING MsgMaxKeepZero else ret tt) ;;
    latest_backup_num <- get_latest_snapshot_num config ;;
    log AppLogger INFO (MsgLatest latest_backup_num) ;;
    snapshot_path <- get_snapshot_root_path remote config ;;
    snapshots <- get_snapshots snapshot_path ;;
    let snapshots := sort_by_num snapshots in
    log AppLogger DEBUG (MsgSnapshotList (map fst snapshots)) ;;
    retention max_keep latest_backup_num snapshots.

End Script.

(** ** Reading a trace *)

(** The subvolume path of a [btrfs subvolume delete] call. *)
Definition btrfs_target (e : event) : option PosixPath :=
  match e with
  | EvRun false [ArgStr cmd; ArgPath p] =>
      if String.eqb cmd "btrfs subvolume delete" then Some p else None
  | _ => None
  end.

Definition deleted_num (e : event) : option Z :=
  match e with
  | EvLog AppLogger INFO (MsgDeleted num) => Some num
  | _ => None
  end.

Fixpoint pick {A B} (f : A -> option B) (l : list A) : list B :=
  match l with
  | [] => []
  | x :: l' => match f x with
               | Some y => y :: pick f l'
               | None => pick f l'
               end
  end.

(** The subvolumes the deleter was started on, oldest first. *)
Definition attempted_subvolumes (t : trace) : list PosixPath :=
  pick btrfs_target (rev t).

(** The numbers reported as deleted, oldest first. *)
Definition deleted_nums (t : trace) : list Z := pick deleted_num (rev t).

(** The snapshots left once the numbers in [gone] are deleted. *)
Definition kept (snapshots : list snapshot) (gone : list Z) : list Z :=
  filter (fun n => negb (existsb (Z.eqb n) gone)) (map fst snapshots).

(** The effects one call [delete_snapshot path] can have. *)
Inductive delete_event (env : Env) (path : PosixPath) : event -> Prop :=
| DeBtrfs :
    is_absolute path = true ->
    delete_event env path
      (EvRun false [ArgStr "btrfs subvolume delete"; ArgPath (child path "subvolume")])
| DeFailedSubvolume :
    delete_event env path
      (EvLog AppLogger ERROR (MsgFailedSubvolume (child path "subvolume")))
| DeRmtree : delete_event env path (EvRmtree (to_str path))
| DeFailedOuter : delete_event env path (EvLog RootLogger WARNING (MsgFailedOuterDir path))
| DeException : delete_event env path (EvLog AppLogger DEBUG MsgException).

(** A snapshot the loop hands to the deleter when it reaches it. *)
Definition eligible (max_keep : Z) (latest_backup_num : option Z) (s : snapshot) : bool :=
  (negb (num_is_latest (fst s) latest_backup_num && (max_keep >? 0))
   && negb (path_eqb (snd s) root_path))%bool.

(** The effects the retention loop can have on the snapshots [rest]. *)
Inductive loop_event (env : Env) (max_keep : Z) (latest : option Z)
          (rest : list snapshot) : event -> Prop :=
| LeSkipLatest num path :
    In (num, path) rest -> latest = Some num -> 0 < max_keep ->
    loop_event env max_keep latest rest (EvLog AppLogger DEBUG (MsgSkipLatest num))
| LeSkipRoot num path :
    In (num, path) rest -> path = root_path ->
    loop_event env max_keep latest rest (EvLog RootLogger WARNING (MsgSkipRoot path))
| LeDelete num path e :
    In (num, path) rest -> eligible max_keep latest (num, path) = true ->
    delete_event env path e ->
    loop_event env max_keep latest rest e
| LeDeleted num path :
    In (num, path) rest -> eligible max_keep latest (num, path) = true ->
    loop_event env max_keep latest rest (EvLog AppLogger INFO (MsgDeleted num)).

(** ** The specification's wording, where it is compared with the script *)

Module Spec.

(** Section 4.3: the newest line with the marker decides; when its first
    token is no integer the answer is absent. *)
Fixpoint resolve_latest (reversed_lines : list string) : option Z :=
  match reversed_lines with
  | [] => None
  | line :: rest =>
      if contains marker line then Py.int (split_space_head line)
      else resolve_latest rest
  end.

(** Section 4.4, step 3: the loop with [remainingCount], the number of
    snapshots not visited yet, in the place of [len(snapshots)]. *)
Fixpoint retention_loop (env : Env) (max_keep : Z) (latest : option Z)
         (delete_count delete_attempts : Z) (rest : list snapshot)
  : M (Z * Z) :=
  match rest with
  | [] => ret (delete_count, delete_attempts)
  | (num, path) :: rest' =>
      if Z.of_nat (List.length rest) - delete_attempts <=? max_keep then
        ret (delete_count, delete_attempts)
      else if (num_is_latest num latest && (max_keep >? 0))%bool then
        log AppLogger DEBUG (MsgSkipLatest num) ;;
        retention_loop env max_keep latest delete_count delete_attempts rest'
      else if path_eqb path root_path then
        log RootLogger WARNING (MsgSkipRoot path) ;;
        retention_loop env max_keep latest delete_count delete_attempts rest'
      else
        let delete_attempts := 0 in
        deleted <- delete_snapshot env path ;;
        if deleted then
          log AppLogger INFO (MsgDeleted num) ;;
          retention_loop env max_keep latest (delete_count + 1) delete_attempts rest'
        else
          retention_loop env max_keep latest delete_count delete_attempts rest'
  end.


End Spec.

(** ** Concrete runs *)

Module Sample.

Definition LF : string := String "010" EmptyString.

(** The mirror of the snapper config [root] under [/mnt/backup]. *)
Definition base : PosixPath := mkPath Slash ["mnt"; "backup"; "root"].

Definition snap (n : Z) (name : string) : snapshot := (n, child base name).

Definition five : list snapshot :=
  [snap 1 "1"; snap 2 "2"; snap 3 "3"; snap 4 "4"; snap 5 "5"].


Definition listing : string :=
  "# | Description" ++ LF ++
  "0 | current" ++ LF ++
  "4 | " ++ LF ++
  "5 | latest incremental backup" ++ LF.

(** Two marked lines; the newer one does not start with a number. *)
Definition listing_two_marks : string :=
  "7 | latest incremental backup" ++ LF ++
  "x | latest incremental backup" ++ LF.

Definition is_snapper (argv : list arg) : bool :=
  match argv with
  | ArgStr cmd :: _ => String.eqb cmd "snapper"
  | _ => false
  end.

Definition dir_names : list string :=
  ["3"; "1"; "notes.txt"; "5"; "2"; "lost+found"; "4"].

Definition is_dir_here (p : PosixPath) : bool :=
  (path_eqb p base
   || existsb (fun n => path_eqb p (child base n))
              ["1"; "2"; "3"; "4"; "5"; "lost+found"; "-5"; "7"])%bool.

(** Every external tool succeeds and every removal works. *)
Definition all_ok : Env :=
  mkEnv "/home/user"
        is_dir_here
        is_dir_here
        (fun p => if path_eqb p base then Some dir_names else None)
        (fun _ argv => if is_snapper argv then Exited 0 listing "" else Exited 0 "" "")
        (fun _ _ => true).

(** The volume removal works, removing the outer directory fails. *)
Definition rmtree_fails : Env :=
  mkEnv "/home/user" is_dir_here is_dir_here
        (fun p => if path_eqb p base then Some dir_names else None)
        (fun _ argv => if is_snapper argv then Exited 0 listing "" else Exited 0 "" "")
        (fun _ _ => false).

(** The volume removal tool exits with status 1. *)
Definition btrfs_fails : Env :=
  mkEnv "/home/user" is_dir_here is_dir_here
        (fun p => if path_eqb p base then Some dir_names else None)
        (fun _ argv => if is_snapper argv then Exited 0 listing ""
                       else Exited 1 "" "ERROR: not a subvolume")
        (fun _ _ => true).


(** A mirror whose entry [7] is a symbolic link to the file system root:
    [is_dir] follows the link, the path itself stays [base/7]; the volume
    removal tool runs on what [base/7/subvolume] leads to, and [rmtree]
    refuses a symbolic link. *)
Definition link_to_root : Env :=
  mkEnv "/home/user" is_dir_here is_dir_here
        (fun p => if path_eqb p base then Some ["7"] else None)
        (fun _ argv => if is_snapper argv then Exited 0 listing "" else Exited 0 "" "")
        (fun _ _ => false).

(** Where the paths of [link_to_root] lead once links are followed. *)
Definition resolve_link_to_root (p : PosixPath) : PosixPath :=
  if path_eqb p (child base "7") then root_path else p.

End Sample.

(** ** Notions used in the statements *)

Local Open Scope list_scope.

(** The argv of the volume removal for the snapshot at [path]. *)
Definition btrfs_argv (path : PosixPath) : list arg :=
  [ArgStr "btrfs subvolume delete"; ArgPath (child path "subvolume")].

(** Ascending order on the snapshot numbers. *)
Definition num_le (a b : snapshot) : Prop := fst a <= fst b.

(** The ways a computation can end without a value. *)
Inductive abnormal : Type := AExit (code : Z) | ARaise (e : exn).

Definition abnormal_of {A} (o : outcome A) : option abnormal :=
  match o with
  | Ret _ => None
  | Exit c => Some (AExit c)
  | Raise e => Some (ARaise e)
  end.

(** [m] never ends in one of the [bad] ways, from any trace. *)
Definition avoids {A} (bad : abnormal -> Prop) (m : M A) : Prop :=
  forall t a, abnormal_of (fst (m t)) = Some a -> ~ bad a.

(** [m] adds events in front of the trace and each satisfies [P]. *)
Definition extends {A} (P : event -> Prop) (m : M A) : Prop :=
  forall t, exists new, snd (m t) = new ++ t /\ Forall P new.

(** The three lines of the summary. *)
Definition summary_event (e : event) : Prop :=
  exists n, e = EvLog AppLogger INFO (MsgSuccessfulDeletes n)
            \/ e = EvLog AppLogger INFO (MsgDeleteAttempts n)
            \/ e = EvLog AppLogger INFO (MsgTotal n).

(** The argv of the listing tool. *)
Definition snapper_argv (config : string) : list arg :=
  [ArgStr "snapper"; ArgStr "-c"; ArgStr config; ArgStr "list";
   ArgStr "--columns"; ArgStr "number,description"].

(** A line that carries the marker but no leading number. *)
Definition no_number (line : string) : Prop :=
  contains marker line = true -> Py.int (split_space_head line) = None.

(** What one directory entry contributes: a snapshot when it is a
    directory and [int] accepts its name. *)
Definition entry_snapshot (env : Env) (path : PosixPath) (entry : string)
  : option snapshot :=
  if path_is_dir env (child path entry)
  then option_map (fun num => (num, child path entry)) (Py.int entry)
  else None.

Definition debug_log (e : event) : Prop := exists m, e = EvLog AppLogger DEBUG m.

(** Every tool the script starts exits with 0 and every removal works. *)
Definition tools_succeed (env : Env) : Prop :=
  (forall h argv, exists out err, run_process env h argv = Exited 0 out err) /\
  (forall h s, rmtree_ok env h s = true).

(** The event [e] is no deletion of a snapshot numbered [n]: it does not
    report [n] as deleted, and where it starts the volume removal or
    [rmtree], it does so on the path of a snapshot numbered otherwise. *)
Definition spares (n : Z) (snapshots : list snapshot) (e : event) : Prop :=
  deleted_num e <> Some n /\
  (forall q, btrfs_target e = Some q ->
             exists m p, In (m, p) snapshots /\ m <> n /\ q = child p "subvolume") /\
  (forall s, e = EvRmtree s ->
             exists m p, In (m, p) snapshots /\ m <> n /\ s = to_str p).

(** Ending in an [AssertionError]. *)
Definition is_assertion (a : abnormal) : Prop := ARaise AssertionError = a.

(** ** The logging set-up (lines 15-58 and 200-207) *)

Inductive stream : Type := Stdout | Stderr.

(** The numbers of [logging.DEBUG] .. [logging.ERROR]. *)
Definition levelno (l : level) : Z :=
  match l with
  | DEBUG => 10
  | INFO => 20
  | WARNING => 30
  | ERROR => 40
  end.

Inductive handler_module : Type := ColorlogModule | LoggingModule.

Inductive formatter : Type := ColoredFormatter | PlainFormatter.

(** A [StreamHandler]: where it writes, its threshold, its filters (each
    one a test on the level of the record) and its formatter. *)
Record Handler : Type := mkHandler {
  h_module : handler_module;
  h_stream : stream;
  h_level : level;
  h_filters : list (level -> bool);
  h_formatter : formatter
}.

(** What [set_up_logging] leaves on [logger]: its level and its handlers,
    in the order they were added. *)
Record LoggerState : Type := mkLogger {
  lg_level : level;
  lg_handlers : list Handler
}.

(** [set_up_logging(log_level, use_color)], with [colorlog_importable]
    telling whether [import colorlog] succeeds. The result is the state
    of [logger] and the records the function itself logs. *)
Definition set_up_logging (colorlog_importable : bool) (log_level : level)
           (use_color : bool) : LoggerState * list (level * string) :=
  let use_colorlog := if use_color then colorlog_importable else false in
  let module := if use_colorlog then ColorlogModule else LoggingModule in
  let fmt := if use_colorlog then ColoredFormatter else PlainFormatter in
  let stdout_handler :=
    mkHandler module Stdout DEBUG [fun lvl => levelno lvl <=? levelno INFO] fmt in
  let stderr_handler := mkHandler module Stderr WARNING [] fmt in
  (mkLogger log_level [stdout_handler; stderr_handler],
   if (negb use_colorlog && use_color)%bool
   then [(WARNING, "Unable to import colorlog dependency for colored logging.")]
   else []).

(** Lines 200-205: the level chosen from the count of [-v]. *)
Definition log_level_of_verbose (verbose : Z) : level :=
  if verbose >=? 2 then DEBUG
  else if verbose =? 1 then INFO
  else WARNING.

(** [Handler.handle]: the record passes the handler's threshold and all
    its filters. *)
Definition handler_takes (h : Handler) (lvl : level) : bool :=
  (levelno (h_level h) <=? levelno lvl)
  && forallb (fun f : level -> bool => f lvl) (h_filters h).

(** The streams a record of level [lvl] logged on [logger] is written to
    by the handlers of [logger]: none when the logger's level disables the
    record, else the stream of every handler that takes it. *)
Definition delivered (st : LoggerState) (lvl : level) : list stream :=
  if levelno (lg_level st) <=? levelno lvl
  then map h_stream (filter (fun h => handler_takes h lvl) (lg_handlers st))
  else [].

(** ** Further notions used in the statements *)

(** No blank at either end. *)
Definition trimmed (s : string) : Prop :=
  (forall c r, s = String c r -> isspace c = false) /\
  (forall p c, s = (p ++ String c EmptyString)%string -> isspace c = false).

(** What [log_external_output] adds to the trace for two texts. *)
Definition external_records (out err : string) (lvl : level) : list event :=
  (if String.eqb (strip out) "" then []
   else [EvLog AppLogger lvl (MsgExternal (strip out))])
  ++ (if String.eqb (strip err) "" then []
      else [EvLog AppLogger lvl (MsgExternal (strip err))]).

(** Runs that end early. *)
Module Failing.

(** The listing tool exits with status 1 and complains about
    permissions. *)
Definition snapper_denied : Env :=
  mkEnv "/home/user" Sample.is_dir_here Sample.is_dir_here
        (fun p => if path_eqb p Sample.base then Some Sample.dir_names else None)
        (fun _ argv => if Sample.is_snapper argv
                       then Exited 1 "" "No permissions."
                       else Exited 0 "" "")
        (fun _ _ => true).

(** The listing tool cannot be started. *)
Definition snapper_missing : Env :=
  mkEnv "/home/user" Sample.is_dir_here Sample.is_dir_here
        (fun p => if path_eqb p Sample.base then Some Sample.dir_names else None)
        (fun _ argv => if Sample.is_snapper argv then SpawnError else Exited 0 "" "")
        (fun _ _ => true).

(** Nothing exists on the file system. *)
Definition nothing_mounted : Env :=
  mkEnv "/home/user" (fun _ => false) (fun _ => false) (fun _ => None)
        (fun _ argv => if Sample.is_snapper argv
                       then Exited 0 Sample.listing "" else Exited 0 "" "")
        (fun _ _ => true).

End Failing.

(** Any event but the warning of line 242. *)
Definition not_root_warning (e : event) : Prop :=
  forall p, e <> EvLog RootLogger WARNING (MsgSkipRoot p).

(** A line of the listing that can give the latest number: it carries
    the marker and does not begin with a space. *)
Definition candidate_line (line : string) : bool :=
  (contains marker line && negb (startswith " " line))%bool.

(** The path of a call of [shutil.rmtree]. *)
Definition rmtree_target (e : event) : option string :=
  match e with
  | EvRmtree s => Some s
  | _ => None
  end.

(** Events that start no volume removal and no directory removal. *)
Definition deletion_free (new : list event) : Prop :=
  Forall (fun e => btrfs_target e = None /\ forall s, e <> EvRmtree s) new.

(** [l1] is [l2] with some elements left out, the order kept. *)
Inductive subseq {A : Type} : list A -> list A -> Prop :=
| subseq_nil : subseq [] []
| subseq_skip x l1 l2 : subseq l1 l2 -> subseq l1 (x :: l2)
| subseq_keep x l1 l2 : subseq l1 l2 -> subseq (x :: l1) (x :: l2).

(** Ending in [exit(c)] with [c] other than 1. *)
Definition exits_other_than_1 (a : abnormal) : Prop :=
  exists c, a = AExit c /\ c <> 1.

(** ** Lemmas on the Python functions *)

Lemma parts_eqb_eq (a b : list string) : parts_eqb a b = true <-> a = b.
Proof.
  revert b; induction a as [|x a IH]; intros [|y b]; simpl; split;
    try congruence; try reflexivity.
  - intros H. apply andb_true_iff in H as [Hx Hr].
    apply String.eqb_eq in Hx. apply IH in Hr. congruence.
  - intros H. injection H as -> ->. rewrite String.eqb_refl. simpl.
    now apply IH.
Qed.

Lemma path_eqb_eq (p q : PosixPath) : path_eqb p q = true <-> p = q.
Proof.
  destruct p as [rp pp], q as [rq pq]. unfold path_eqb; simpl. split.
  - intros H. apply andb_true_iff in H as [Hr Hp].
    apply parts_eqb_eq in Hp. subst.
    destruct rp, rq; simpl in Hr; congruence.
  - intros H. injection H as -> ->. apply andb_true_iff. split.
    + now destruct rq.
    + now apply parts_eqb_eq.
Qed.

Lemma child_is_absolute (p : PosixPath) (entry : string) :
  is_absolute (child p entry) = is_absolute p.
Proof. reflexivity. Qed.

Lemma child_name (p : PosixPath) (entry : string) : name (child p entry) = entry.
Proof. unfold name, child; simpl. apply last_last. Qed.

Lemma child_not_root (p : PosixPath) (entry : string) :
  path_eqb (child p entry) root_path = false.
Proof.
  destruct (path_eqb (child p entry) root_path) eqn:E; [|reflexivity].
  apply path_eqb_eq in E. unfold child, root_path in E.
  injection E as _ E. now destruct (parts p).
Qed.

Lemma child_inj (p q : PosixPath) (entry : string) :
  child p entry = child q entry -> p = q.
Proof.
  destruct p as [rp pp], q as [rq pq]. unfold child; simpl.
  intros H. injection H as -> H. apply app_inj_tail in H as [-> _]. reflexivity.
Qed.

Lemma absolute_of_absolute (cwd : string) (p : PosixPath) :
  is_absolute p = true -> absolute cwd p = p.
Proof. unfold absolute. now intros ->. Qed.

Lemma absolute_is_absolute (cwd : string) (p : PosixPath) :
  is_absolute (from_segments [cwd]) = true -> is_absolute (absolute cwd p) = true.
Proof.
  intros Hcwd. unfold absolute. destruct (is_absolute p) eqn:E; [exact E|].
  exact Hcwd.
Qed.

(** ** The sort is a stable rearrangement in ascending order *)

Lemma insert_by_num_perm (x : snapshot) (l : list snapshot) :
  Permutation (insert_by_num x l) (x :: l).
Proof.
  induction l as [|y l IH]; simpl; [reflexivity|].
  destruct (fst x <=? fst y); [reflexivity|].
  rewrite IH. apply perm_swap.
Qed.

Lemma sort_by_num_perm (l : list snapshot) : Permutation (sort_by_num l) l.
Proof.
  induction l as [|x l IH]; simpl; [reflexivity|].
  rewrite insert_by_num_perm. now constructor.
Qed.

Lemma insert_by_num_sorted (x : snapshot) (l : list snapshot) :
  Sorted num_le l -> Sorted num_le (insert_by_num x l).
Proof.
  induction 1 as [|y l Hs IH Hhd]; simpl.
  - repeat constructor.
  - destruct (fst x <=? fst y) eqn:E.
    + apply Z.leb_le in E. repeat constructor; assumption.
    + apply Z.leb_gt in E. constructor; [exact IH|].
      destruct Hhd as [|z l Hyz]; simpl.
      * constructor. unfold num_le. lia.
      * destruct (fst x <=? fst z); constructor; unfold num_le in *; lia.
Qed.

Lemma sort_by_num_sorted (l : list snapshot) : Sorted num_le (sort_by_num l).
Proof.
  induction l as [|x l IH]; simpl; [constructor|].
  now apply insert_by_num_sorted.
Qed.

(** Snapshots with the same number keep the order they had. *)
Lemma insert_by_num_filter (k : Z) (x : snapshot) (l : list snapshot) :
  filter (fun s : snapshot => fst s =? k) (insert_by_num x l)
  = filter (fun s : snapshot => fst s =? k) (x :: l).
Proof.
  induction l as [|y l IH]; [reflexivity|].
  simpl insert_by_num. destruct (fst x <=? fst y) eqn:E; [reflexivity|].
  apply Z.leb_gt in E. simpl in *. rewrite IH.
  destruct (fst x =? k) eqn:Ex, (fst y =? k) eqn:Ey; try reflexivity.
  apply Z.eqb_eq in Ex, Ey. lia.
Qed.

Lemma sort_by_num_stable (k : Z) (l : list snapshot) :
  filter (fun s : snapshot => fst s =? k) (sort_by_num l)
  = filter (fun s : snapshot => fst s =? k) l.
Proof.
  induction l as [|x l IH]; [reflexivity|].
  simpl sort_by_num. rewrite insert_by_num_filter. simpl. now rewrite IH.
Qed.

Lemma sort_by_num_length (l : list snapshot) :
  List.length (sort_by_num l) = List.length l.
Proof. apply Permutation_length, sort_by_num_perm. Qed.

(** ** How computations end *)

Lemma avoids_ret {A} bad (a : A) : avoids bad (ret a).
Proof. intros t x; simpl; discriminate. Qed.

Lemma avoids_emit bad e : avoids bad (emit e).
Proof. intros t x; simpl; discriminate. Qed.

Lemma avoids_raise {A} (bad : abnormal -> Prop) e :
  ~ bad (ARaise e) -> avoids bad (@raise A e).
Proof. intros H t a Ha. simpl in Ha. injection Ha as <-. exact H. Qed.

Lemma avoids_exit {A} (bad : abnormal -> Prop) c :
  ~ bad (AExit c) -> avoids bad (@exit_ A c).
Proof. intros H t a Ha. simpl in Ha. injection Ha as <-. exact H. Qed.

Lemma avoids_bind {A B} bad (m : M A) (f : A -> M B) :
  avoids bad m ->
  (forall a t t', m t = (Ret a, t') -> avoids bad (f a)) ->
  avoids bad (bind m f).
Proof.
  intros Hm Hf t x. unfold bind.
  destruct (m t) as [[a|c|e] t'] eqn:E.
  - apply (Hf a t t' E).
  - specialize (Hm t x). rewrite E in Hm. exact Hm.
  - specialize (Hm t x). rewrite E in Hm. exact Hm.
Qed.

Lemma extends_ret {A} P (a : A) : extends P (ret a).
Proof. intros t. exists []. split; [reflexivity|constructor]. Qed.

Lemma extends_emit (P : event -> Prop) e : P e -> extends P (emit e).
Proof. intros H t. exists [e]. split; [reflexivity|]. now repeat constructor. Qed.

Lemma extends_raise {A} P e : extends P (@raise A e).
Proof. intros t. exists []. split; [reflexivity|constructor]. Qed.

Lemma extends_exit {A} P c : extends P (@exit_ A c).
Proof. intros t. exists []. split; [reflexivity|constructor]. Qed.

Lemma extends_bind {A B} P (m : M A) (f : A -> M B) :
  extends P m -> (forall a, extends P (f a)) -> extends P (bind m f).
Proof.
  intros Hm Hf t. unfold bind. destruct (Hm t) as [n1 [E1 F1]].
  destruct (m t) as [[a|c|e] t'] eqn:E; simpl in E1; subst t'.
  - destruct (Hf a (n1 ++ t)) as [n2 [E2 F2]].
    exists (n2 ++ n1). rewrite E2, app_assoc. split; [reflexivity|].
    apply Forall_app; now split.
  - now exists n1.
  - now exists n1.
Qed.

Lemma extends_weaken {A} (P Q : event -> Prop) (m : M A) :
  (forall e, P e -> Q e) -> extends P m -> extends Q m.
Proof.
  intros H Hm t. destruct (Hm t) as [new [E F]]. exists new. split; [exact E|].
  eapply Forall_impl; eauto.
Qed.

Lemma extends_in {A} (P : event -> Prop) (m : M A) t e :
  extends P m -> In e (snd (m t)) -> In e t \/ P e.
Proof.
  intros Hm Hin. destruct (Hm t) as [new [E F]]. rewrite E in Hin.
  apply in_app_or in Hin as [Hin|Hin]; [right|now left].
  rewrite Forall_forall in F. now apply F.
Qed.

(** Routine steps on how computations end and what they add. *)
Create HintDb effects discriminated.
#[local] Hint Resolve avoids_ret avoids_emit extends_ret extends_raise extends_exit
  : effects.

(** Walks through a sequence of binds whose heads are settled by the
    hints. *)
Ltac avoids_seq :=
  repeat (apply avoids_bind; [solve [auto with effects]|intros ? ? ? ?]).

(** ** The deleter *)

(** [delete_snapshot] on an absolute path, case by case. *)
Lemma delete_snapshot_run (env : Env) (path : PosixPath) (t : trace) :
  is_absolute path = true ->
  delete_snapshot env path t =
  let t1 := EvRun false (btrfs_argv path) :: t in
  match run_process env t (btrfs_argv path) with
  | SpawnError => (Raise OSError, t1)
  | Exited rc _ _ =>
      if rc =? 0 then
        if rmtree_ok env t1 (to_str path)
        then (Ret true, EvRmtree (to_str path) :: t1)
        else (Ret false,
              EvLog AppLogger DEBUG MsgException
              :: EvLog RootLogger WARNING (MsgFailedOuterDir path)
              :: EvRmtree (to_str path) :: t1)
      else (Raise AttributeError,
            EvLog AppLogger ERROR (MsgFailedSubvolume (child path "subvolume")) :: t1)
  end.
Proof.
  intros Habs. unfold delete_snapshot, btrfs_argv. rewrite Habs. cbn [negb].
  rewrite (absolute_of_absolute (getcwd env) (child path "subvolume"))
    by (now rewrite child_is_absolute).
  unfold bind at 1, subprocess_run. cbv beta zeta.
  destruct (run_process env t _) as [|rc out err]; [reflexivity|].
  cbn [returncode stdout stderr]. destruct (rc =? 0); cbn [negb].
  - destruct (rmtree_ok env _ (to_str path)); reflexivity.
  - reflexivity.
Qed.

Lemma delete_snapshot_relative (env : Env) (path : PosixPath) (t : trace) :
  is_absolute path = false ->
  delete_snapshot env path t = (Raise AssertionError, t).
Proof. intros H. unfold delete_snapshot. now rewrite H. Qed.

Lemma delete_snapshot_extends (env : Env) (path : PosixPath) :
  extends (delete_event env path) (delete_snapshot env path).
Proof.
  intros t. destruct (is_absolute path) eqn:Habs.
  - rewrite (delete_snapshot_run env path t Habs). cbv zeta. unfold btrfs_argv.
    destruct (run_process env t _) as [|rc out err].
    + eexists [_]. split; [reflexivity|]. repeat constructor. exact Habs.
    + destruct (rc =? 0); [destruct (rmtree_ok env _ _)|].
      * eexists [_; _]. split; [reflexivity|]. repeat constructor. exact Habs.
      * eexists [_; _; _; _]. split; [reflexivity|]. repeat constructor. exact Habs.
      * eexists [_; _]. split; [reflexivity|]. repeat constructor. exact Habs.
  - rewrite (delete_snapshot_relative env path t Habs).
    exists []. split; [reflexivity|constructor].
Qed.

(** The deleter never calls [exit]. *)
Lemma delete_snapshot_no_exit (env : Env) (path : PosixPath) :
  avoids (fun a => exists c, a = AExit c) (delete_snapshot env path).
Proof.
  intros t a Ha [c ->]. destruct (is_absolute path) eqn:Habs.
  - rewrite (delete_snapshot_run env path t Habs) in Ha. cbv zeta in Ha.
    destruct (run_process env t _) as [|rc out err]; [discriminate|].
    destruct (rc =? 0); [destruct (rmtree_ok env _ _)|]; discriminate.
  - rewrite (delete_snapshot_relative env path t Habs) in Ha. discriminate.
Qed.

(** On an absolute path its assertion holds. *)
Lemma delete_snapshot_no_assertion (env : Env) (path : PosixPath) :
  is_absolute path = true ->
  avoids (eq (ARaise AssertionError)) (delete_snapshot env path).
Proof.
  intros Habs t a Ha <-.
  rewrite (delete_snapshot_run env path t Habs) in Ha. cbv zeta in Ha.
  destruct (run_process env t _) as [|rc out err]; [discriminate|].
  destruct (rc =? 0); [destruct (rmtree_ok env _ _)|]; discriminate.
Qed.

(** It returns [True] only after the tool exited with 0 and the outer
    directory was removed. *)
Lemma delete_snapshot_true (env : Env) (path : PosixPath) (t t' : trace) :
  delete_snapshot env path t = (Ret true, t') ->
  is_absolute path = true /\
  (exists out err, run_process env t (btrfs_argv path) = Exited 0 out err) /\
  rmtree_ok env (EvRun false (btrfs_argv path) :: t) (to_str path) = true /\
  t' = EvRmtree (to_str path) :: EvRun false (btrfs_argv path) :: t.
Proof.
  intros H. destruct (is_absolute path) eqn:Habs.
  - rewrite (delete_snapshot_run env path t Habs) in H. cbv zeta in H.
    destruct (run_process env t _) as [|rc out err]; [discriminate|].
    destruct (rc =? 0) eqn:Erc; [|discriminate].
    apply Z.eqb_eq in Erc. subst rc.
    destruct (rmtree_ok env _ _) eqn:Erm; [|discriminate].
    injection H as <-. repeat split; eauto.
  - rewrite (delete_snapshot_relative env path t Habs) in H. discriminate.
Qed.

(** ** The retention loop *)

Lemma loop_event_cons env max_keep latest (s : snapshot) rest e :
  loop_event env max_keep latest rest e ->
  loop_event env max_keep latest (s :: rest) e.
Proof.
  intros H. destruct H.
  - eapply LeSkipLatest; eauto. right; eassumption.
  - eapply LeSkipRoot; eauto. right; eassumption.
  - eapply LeDelete; eauto. right; eassumption.
  - eapply LeDeleted; eauto. right; eassumption.
Qed.

Lemma num_is_latest_true (num : Z) (latest : option Z) :
  num_is_latest num latest = true <-> latest = Some num.
Proof.
  destruct latest as [l|]; simpl; split; try congruence.
  - intros H. apply Z.eqb_eq in H. congruence.
  - intros H. injection H as ->. apply Z.eqb_refl.
Qed.

Lemma retention_loop_extends env total max_keep latest rest :
  forall delete_count delete_attempts,
    extends (loop_event env max_keep latest rest)
            (retention_loop env total max_keep latest delete_count delete_attempts rest).
Proof.
  induction rest as [|[num path] rest IH]; intros dc da; simpl.
  - apply extends_ret.
  - destruct (total - da <=? max_keep); [apply extends_ret|].
    assert (IH' : forall dc da,
               extends (loop_event env max_keep latest ((num, path) :: rest))
                 (retention_loop env total max_keep latest dc da rest)).
    { intros a b. eapply extends_weaken; [|apply IH].
      intros e. apply loop_event_cons. }
    destruct (num_is_latest num latest && (max_keep >? 0))%bool eqn:Elat.
    { apply andb_true_iff in Elat as [E1 E2].
      apply num_is_latest_true in E1. apply Z.gtb_lt in E2.
      apply extends_bind; [|intros _; apply IH'].
      apply extends_emit. eapply LeSkipLatest; eauto. now left. }
    destruct (path_eqb path root_path) eqn:Eroot.
    { apply path_eqb_eq in Eroot.
      apply extends_bind; [|intros _; apply IH'].
      apply extends_emit. eapply LeSkipRoot; eauto. now left. }
    assert (Hel : eligible max_keep latest (num, path) = true).
    { unfold eligible; simpl. now rewrite Elat, Eroot. }
    apply extends_bind.
    + eapply extends_weaken; [|apply delete_snapshot_extends].
      intros e He. eapply LeDelete; eauto. now left.
    + intros [|]; [|apply IH'].
      apply extends_bind; [|intros _; apply IH'].
      apply extends_emit. eapply LeDeleted; eauto. now left.
Qed.


Lemma retention_loop_no_exit env total max_keep latest rest :
  forall dc da,
    avoids (fun a => exists c, a = AExit c)
           (retention_loop env total max_keep latest dc da rest).
Proof.
  induction rest as [|[num path] rest IH]; intros dc da; simpl.
  - apply avoids_ret.
  - destruct (total - da <=? max_keep); [apply avoids_ret|].
    destruct (num_is_latest num latest && (max_keep >? 0))%bool.
    { apply avoids_bind; [apply avoids_emit|intros; apply IH]. }
    destruct (path_eqb path root_path).
    { apply avoids_bind; [apply avoids_emit|intros; apply IH]. }
    apply avoids_bind; [apply delete_snapshot_no_exit|].
    intros [|] ? ? _; [|apply IH].
    apply avoids_bind; [apply avoids_emit|intros; apply IH].
Qed.

Lemma retention_loop_no_assertion env total max_keep latest rest :
  Forall (fun s : snapshot => is_absolute (snd s) = true) rest ->
  forall dc da,
    avoids (eq (ARaise AssertionError))
           (retention_loop env total max_keep latest dc da rest).
Proof.
  induction 1 as [|[num path] rest Habs _ IH]; intros dc da; simpl.
  - apply avoids_ret.
  - destruct (total - da <=? max_keep); [apply avoids_ret|].
    destruct (num_is_latest num latest && (max_keep >? 0))%bool.
    { apply avoids_bind; [apply avoids_emit|intros; apply IH]. }
    destruct (path_eqb path root_path).
    { apply avoids_bind; [apply avoids_emit|intros; apply IH]. }
    apply avoids_bind; [now apply delete_snapshot_no_assertion|].
    intros [|] ? ? _; [|apply IH].
    apply avoids_bind; [apply avoids_emit|intros; apply IH].
Qed.



(** ** The retention policy (C1) *)

(** C1: the specification promises that at least
    min(maxKeep, totalDiscovered) snapshots remain, and that snapshots
    1..5 with latest marker 5 and maxKeep 2 end as 4 and 5. The script,
    run on that input with every deletion succeeding, deletes 1, 2, 3 and
    4 and keeps 5 alone, the snapshot the marker protects: one snapshot
    remains where two were to be kept. The same happens through [main] on
    a mirror holding these five directories. *)
Theorem C1_retention_keeps_fewer_than_max_keep :
  let r := retention Sample.all_ok 2 (Some 5) Sample.five [] in
  let r' := main Sample.all_ok "root" "/mnt/backup" 2 [] in
  fst r = Ret tt /\
  deleted_nums (snd r) = [1; 2; 3; 4] /\
  kept Sample.five (deleted_nums (snd r)) = [5] /\
  filter (eligible 2 (Some 5)) Sample.five
  = [Sample.snap 1 "1"; Sample.snap 2 "2"; Sample.snap 3 "3"; Sample.snap 4 "4"] /\
  Z.of_nat (List.length (kept Sample.five (deleted_nums (snd r))))
  < Z.min 2 (Z.of_nat (List.length Sample.five)) /\
  fst r' = Ret tt /\
  deleted_nums (snd r') = [1; 2; 3; 4].
Proof. vm_compute. repeat split; reflexivity. Qed.

(** ** The exit status (C2) *)

(** C2: the specification has the process exit non-zero exactly when some
    deletion attempt did not succeed. With one snapshot, maxKeep 0, and a
    deleter whose directory removal fails, the script starts the deletion,
    reports no snapshot as deleted, logs 0 delete attempts and ends with
    status 0; so does [main] on a mirror of five snapshots, all five
    deletions failing. *)
Theorem C2_failed_deletion_exits_zero :
  let s := Sample.snap 1 "1" in
  let r := retention Sample.rmtree_fails 0 None [s] [] in
  let r' := main Sample.rmtree_fails "root" "/mnt/backup" 0 [] in
  attempted_subvolumes (snd r) = [child (snd s) "subvolume"] /\
  In (EvLog RootLogger WARNING (MsgFailedOuterDir (snd s))) (snd r) /\
  deleted_nums (snd r) = [] /\
  In (EvLog AppLogger INFO (MsgDeleteAttempts 0)) (snd r) /\
  fst r = Ret tt /\
  exit_status (fst r) = 0 /\
  List.length (attempted_subvolumes (snd r')) = 5%nat /\
  deleted_nums (snd r') = [] /\
  exit_status (fst r') = 0.
Proof. vm_compute. repeat split; auto 10. Qed.

(** ** The break condition (C4) *)




(** ** The deleter's first stage (C6) *)

(** C6: the specification has the deleter log the tool's captured output
    and return failure when the volume removal exits non-zero. The script
    runs the tool without capturing its output, so [log_external_output]
    receives [None] twice and raises [AttributeError]: the failure is
    logged, no output is, no directory removal is started, and
    [delete_snapshot] returns nothing. *)
Theorem C6_subvolume_failure_raises :
  forall env path t rc out err,
    is_absolute path = true ->
    run_process env t (btrfs_argv path) = Exited rc out err ->
    rc <> 0 ->
    delete_snapshot env path t
    = (Raise AttributeError,
       [EvLog AppLogger ERROR (MsgFailedSubvolume (child path "subvolume"));
        EvRun false (btrfs_argv path)] ++ t).
Proof.
  intros env path t rc out err Habs Hrun Hrc.
  rewrite (delete_snapshot_run env path t Habs). cbv zeta. rewrite Hrun.
  apply Z.eqb_neq in Hrc. now rewrite Hrc.
Qed.

Lemma C6_subvolume_failure_raises_witness :
  is_absolute (child Sample.base "1") = true /\
  1 <> 0 /\
  delete_snapshot Sample.btrfs_fails (child Sample.base "1") []
  = (Raise AttributeError,
     [EvLog AppLogger ERROR
        (MsgFailedSubvolume (child (child Sample.base "1") "subvolume"));
      EvRun false (btrfs_argv (child Sample.base "1"))]).
Proof.
  split; [reflexivity|]. split; [lia|].
  apply (C6_subvolume_failure_raises Sample.btrfs_fails (child Sample.base "1") []
           (rc := 1) (out := "") (err := "ERROR: not a subvolume")).
  - reflexivity.
  - reflexivity.
  - lia.
Defined.

(** ** The guard on the root path (C8) *)

(** C8: the specification forbids any deletion attempt on a snapshot whose
    path resolves to the file system root. On a mirror whose entry [7] is
    a symbolic link to [/], the script compares the unresolved path
    [/mnt/backup/root/7] with [/], finds them different, and goes on to
    delete: the volume removal tool is run on [7/subvolume], [rmtree] is
    called on the entry, and no warning about the root path is logged. *)
Theorem C8_link_to_root_is_attempted :
  let p := child Sample.base "7" in
  let r := main Sample.link_to_root "root" "/mnt/backup" 0 [] in
  path_eqb (Sample.resolve_link_to_root p) root_path = true /\
  path_eqb p root_path = false /\
  attempted_subvolumes (snd r) = [child p "subvolume"] /\
  In (EvRmtree "/mnt/backup/root/7") (snd r) /\
  ~ In (EvLog RootLogger WARNING (MsgSkipRoot p)) (snd r) /\
  exit_status (fst r) = 0.
Proof.
  vm_compute. repeat split; auto 10.
  intros H. repeat (destruct H as [H|H]; [discriminate|]). exact H.
Qed.

(** ** The summary and the exit check *)

Lemma retention_extends env max_keep latest snapshots :
  extends (fun e => loop_event env max_keep latest snapshots e \/ summary_event e)
          (retention env max_keep latest snapshots).
Proof.
  unfold retention. apply extends_bind.
  - eapply extends_weaken; [|apply retention_loop_extends]. intros e; now left.
  - intros [dc da].
    repeat (apply extends_bind;
            [apply extends_emit; right; eexists; eauto|intros _]).
    destruct (da >? dc); [apply extends_exit|apply extends_ret].
Qed.

Lemma retention_loop_max_keep_zero env total latest rest :
  forall dc da t,
    retention_loop env total 0 latest dc da rest t
    = retention_loop env total 0 None dc da rest t.
Proof.
  induction rest as [|[num path] rest IH]; intros dc da t; simpl; [reflexivity|].
  destruct (total - da <=? 0); [reflexivity|].
  rewrite andb_false_r. simpl.
  destruct (path_eqb path root_path).
  { unfold bind, log, emit. apply IH. }
  unfold bind at 1 3.
  destruct (delete_snapshot env path t) as [[[|]|c|e] t1]; try reflexivity.
  - unfold bind, log, emit. apply IH.
  - apply IH.
Qed.


(** ** When every deletion works *)

Lemma pick_app {A B} (f : A -> option B) (l1 l2 : list A) :
  pick f (l1 ++ l2) = pick f l1 ++ pick f l2.
Proof.
  induction l1 as [|a l1 IH]; simpl; [reflexivity|].
  destruct (f a); simpl; now rewrite IH.
Qed.

Lemma in_pick {A B} (f : A -> option B) (l : list A) (y : B) :
  In y (pick f l) <-> exists x, In x l /\ f x = Some y.
Proof.
  induction l as [|a l IH]; simpl.
  - split; [tauto|]. intros [x [[] _]].
  - destruct (f a) as [b|] eqn:E; simpl; rewrite IH; split.
    + intros [->|[x [Hx Hf]]]; eauto.
    + intros [x [[->|Hx] Hf]]; [left; congruence|eauto].
    + intros [x [Hx Hf]]; eauto.
    + intros [x [[->|Hx] Hf]]; [congruence|eauto].
Qed.

Lemma in_pick_rev {A B} (f : A -> option B) (l : list A) (y : B) :
  In y (pick f (rev l)) <-> In y (pick f l).
Proof.
  rewrite !in_pick. split; intros [x [Hx Hf]]; exists x; split; auto.
  - now apply in_rev.
  - now apply in_rev in Hx.
Qed.

(** Once [len(snapshots)] exceeds [max_keep] and the deleter works, the
    loop goes through all snapshots and deletes every eligible one, in
    order: what remains are the snapshots the two guards skip. *)
Lemma retention_loop_deletes_every_eligible env total max_keep latest rest :
  tools_succeed env ->
  Forall (fun s : snapshot => is_absolute (snd s) = true) rest ->
  max_keep < total ->
  forall dc t, exists new,
    retention_loop env total max_keep latest dc 0 rest t
    = (Ret (dc + Z.of_nat (List.length (filter (eligible max_keep latest) rest)), 0),
       new ++ t)
    /\ pick deleted_num (rev new) = map fst (filter (eligible max_keep latest) rest)
    /\ pick btrfs_target (rev new)
       = map (fun s : snapshot => child (snd s) "subvolume")
             (filter (eligible max_keep latest) rest).
Proof.
  intros [Hrun Hrm] Habs Hk.
  induction Habs as [|[num path] rest Hp _ IH]; intros dc t.
  - exists []. simpl. unfold ret. rewrite Z.add_0_r. auto.
  - simpl retention_loop.
    assert (Eg : (total - 0 <=? max_keep) = false) by (apply Z.leb_gt; lia).
    rewrite Eg.
    destruct (num_is_latest num latest && (max_keep >? 0))%bool eqn:Elat.
    { assert (Hel : eligible max_keep latest (num, path) = false).
      { unfold eligible. simpl. now rewrite Elat. }
      unfold bind, log, emit.
      destruct (IH dc (EvLog AppLogger DEBUG (MsgSkipLatest num) :: t))
        as (new & E & Hd & Hb).
      exists (new ++ [EvLog AppLogger DEBUG (MsgSkipLatest num)]).
      rewrite E, <- app_assoc. simpl filter. rewrite Hel.
      split; [reflexivity|].
      rewrite rev_app_distr. simpl. auto. }
    destruct (path_eqb path root_path) eqn:Eroot.
    { assert (Hel : eligible max_keep latest (num, path) = false).
      { unfold eligible. simpl. rewrite Elat, Eroot. reflexivity. }
      unfold bind, log, emit.
      destruct (IH dc (EvLog RootLogger WARNING (MsgSkipRoot path) :: t))
        as (new & E & Hd & Hb).
      exists (new ++ [EvLog RootLogger WARNING (MsgSkipRoot path)]).
      rewrite E, <- app_assoc. simpl filter. rewrite Hel.
      split; [reflexivity|].
      rewrite rev_app_distr. simpl. auto. }
    assert (Hel : eligible max_keep latest (num, path) = true).
    { unfold eligible. simpl. rewrite Elat, Eroot. reflexivity. }
    unfold bind at 1. simpl in Hp.
    rewrite (delete_snapshot_run env path t Hp). cbv zeta.
    destruct (Hrun t (btrfs_argv path)) as (out & err & ->).
    rewrite Z.eqb_refl, Hrm. unfold bind, log, emit.
    destruct (IH (dc + 1)
                 (EvLog AppLogger INFO (MsgDeleted num)
                  :: EvRmtree (to_str path) :: EvRun false (btrfs_argv path) :: t))
      as (new & E & Hd & Hb).
    exists (new ++ [EvLog AppLogger INFO (MsgDeleted num);
                    EvRmtree (to_str path); EvRun false (btrfs_argv path)]).
    rewrite E, <- app_assoc. simpl filter. rewrite Hel. simpl List.length.
    split; [f_equal; f_equal; f_equal; lia|].
    rewrite rev_app_distr. simpl rev. rewrite !pick_app, Hd, Hb. simpl.
    auto.
Qed.

Lemma eligible_not_latest max_keep (n num : Z) (path : PosixPath) :
  0 < max_keep -> eligible max_keep (Some n) (num, path) = true -> num <> n.
Proof.
  intros Hk Hel. unfold eligible in Hel. simpl in Hel.
  apply andb_true_iff in Hel as [Hel _]. apply negb_true_iff in Hel.
  apply andb_false_iff in Hel as [Hel|Hel].
  - now apply Z.eqb_neq.
  - apply Z.gtb_lt in Hk. congruence.
Qed.

(** ** The latest marker is protected (C3) *)

(** C3: with maxKeep > 0 and latest marker [n], no snapshot is reported as
    deleted under the number [n], and the volume removal tool and [rmtree]
    are started only on paths of snapshots numbered otherwise. With
    maxKeep = 0 the marker plays no part: the run is the run of the same
    snapshots without any marker, and when the deleter works the snapshot
    numbered [n] is deleted with the others. *)
Theorem C3_latest_kept_unless_max_keep_zero :
  forall env latest snapshots t n,
    latest = Some n ->
    (forall max_keep,
        0 < max_keep ->
        exists new,
          snd (retention env max_keep latest snapshots t) = new ++ t /\
          Forall (spares n snapshots) new)
    /\ retention env 0 latest snapshots t = retention env 0 None snapshots t
    /\ (forall p,
           In (n, p) snapshots ->
           path_eqb p root_path = false ->
           tools_succeed env ->
           Forall (fun s : snapshot => is_absolute (snd s) = true) snapshots ->
           exists new,
             snd (retention env 0 latest snapshots t) = new ++ t /\
             In n (pick deleted_num new) /\
             In (child p "subvolume") (pick btrfs_target new)).
Proof.
  intros env latest snapshots t n Hl. split; [|split].
  - intros max_keep Hk.
    destruct (retention_extends env max_keep latest snapshots t) as [new [E F]].
    exists new. split; [exact E|].
    eapply Forall_impl; [|exact F]. clear E F new. unfold spares.
    intros e [Hloop|[x Hsum]].
    + destruct Hloop as [num path Hs Hn _|num path Hs Hp|num path e Hs Hel Hd|num path Hs Hel].
      * repeat split; simpl; try discriminate.
      * repeat split; simpl; try discriminate.
      * assert (Hne : num <> n) by (subst latest; eapply eligible_not_latest; eauto).
        destruct Hd; repeat split; simpl; try discriminate.
        -- intros q Hq. injection Hq as <-. eauto.
        -- intros s Hs'. injection Hs' as <-. eauto.
      * assert (Hne : num <> n) by (subst latest; eapply eligible_not_latest; eauto).
        repeat split; simpl; try discriminate. congruence.
    + destruct Hsum as [->|[->| ->]]; repeat split; simpl; discriminate.
  - unfold retention, bind. now rewrite retention_loop_max_keep_zero.
  - intros p Hin Hroot Htools Habs.
    assert (Hpos : 0 < Z.of_nat (List.length snapshots)).
    { destruct snapshots; [destruct Hin|simpl List.length; lia]. }
    destruct (retention_loop_deletes_every_eligible
                latest Htools Habs Hpos 0 t) as (new & E & Hd & Hb).
    assert (Hel : eligible 0 latest (n, p) = true).
    { unfold eligible. simpl. now rewrite andb_false_r, Hroot. }
    unfold retention, bind. rewrite E. unfold log, emit. simpl.
    destruct (0 >? _); unfold exit_, ret; simpl;
      (eexists (_ :: _ :: _ :: new); split; [reflexivity|]; simpl; split;
       apply in_pick_rev;
       [rewrite Hd; apply (in_map fst _ (n, p))
       |rewrite Hb;
        apply (in_map (fun s : snapshot => child (snd s) "subvolume") _ (n, p))];
       apply filter_In; now split).
Qed.

Lemma C3_latest_kept_unless_max_keep_zero_witness :
  (exists new,
      snd (retention Sample.all_ok 2 (Some 5) Sample.five []) = new ++ [] /\
      Forall (spares 5 Sample.five) new) /\
  (exists new,
      snd (retention Sample.all_ok 0 (Some 5) Sample.five []) = new ++ [] /\
      In 5 (pick deleted_num new) /\
      In (child (child Sample.base "5") "subvolume") (pick btrfs_target new)).
Proof.
  pose proof (C3_latest_kept_unless_max_keep_zero
                Sample.all_ok Sample.five [] (n := 5) eq_refl) as (H1 & _ & H3).
  split.
  - apply (H1 2). lia.
  - apply (H3 (child Sample.base "5")).
    + simpl. auto 10.
    + reflexivity.
    + split.
      * intros h argv. simpl. destruct (Sample.is_snapper argv); eauto.
      * reflexivity.
    + repeat constructor.
Defined.

(** ** The attempts counter (C9) *)





(** ** The latest-marker parser (C5) *)

Lemma scan_latest_some (lines : list string) (n : Z) :
  scan_latest lines = Some n <->
  exists before line after,
    lines = before ++ line :: after /\
    contains marker line = true /\
    Py.int (split_space_head line) = Some n /\
    Forall no_number before.
Proof.
  split.
  - induction lines as [|l lines IH]; simpl; [discriminate|].
    destruct (contains marker l) eqn:Ec; simpl.
    + destruct (Py.int (split_space_head l)) as [m|] eqn:Ei.
      * intros H. injection H as ->. exists [], l, lines. repeat split; auto.
      * intros H. destruct (IH H) as (b & x & a & -> & Hc & Hi & Hb).
        exists (l :: b), x, a. repeat split; auto.
        constructor; [|exact Hb]. intros _. exact Ei.
    + intros H. destruct (IH H) as (b & x & a & -> & Hc & Hi & Hb).
      exists (l :: b), x, a. repeat split; auto.
      constructor; [|exact Hb]. intros Hc'. congruence.
  - intros (b & x & a & -> & Hc & Hi & Hb).
    induction Hb as [|l b Hl _ IH]; simpl.
    + now rewrite Hc, Hi.
    + destruct (contains marker l) eqn:Ec; simpl; [|exact IH].
      now rewrite (Hl Ec).
Qed.

Lemma scan_latest_none (lines : list string) :
  scan_latest lines = None <-> Forall no_number lines.
Proof.
  split.
  - induction lines as [|l lines IH]; simpl; [constructor|].
    destruct (contains marker l) eqn:Ec; simpl.
    + destruct (Py.int (split_space_head l)) as [m|] eqn:Ei; [discriminate|].
      intros H. constructor; [intros _; exact Ei|auto].
    + intros H. constructor; [intros Hc; congruence|auto].
  - induction 1 as [|l lines Hl _ IH]; simpl; [reflexivity|].
    destruct (contains marker l) eqn:Ec; simpl; [|exact IH].
    now rewrite (Hl Ec).
Qed.

Lemma get_latest_snapshot_num_ok env config t out err :
  run_process env t (snapper_argv config) = Exited 0 out err ->
  get_latest_snapshot_num env config t
  = (Ret (scan_latest (rev (splitlines (strip out)))),
     EvRun true (snapper_argv config) :: t).
Proof.
  intros H. unfold get_latest_snapshot_num, bind, subprocess_run.
  fold (snapper_argv config). now rewrite H.
Qed.

(** C5, as stated, fails: when the newest marked line does not start with
    a number the stated rule answers absent; the script passes over that line
    and answers with the older marked line's 7. *)
Lemma C5_counterexample :
  let lines := rev (splitlines (strip Sample.listing_two_marks)) in
  hd_error lines = Some "x | latest incremental backup"%string /\
  Spec.resolve_latest lines = None /\
  scan_latest lines = Some 7.
Proof. vm_compute. repeat split. Qed.

(** C5, amended: when the listing tool exits with 0, the result is the
    integer at the head of the newest line that both contains the marker
    and starts with an integer; marked lines whose first token is no
    integer are passed over; the result is absent exactly when no marked
    line starts with an integer, as when no line is marked. *)
Theorem C5_latest_is_newest_marked_line_with_a_number :
  forall env config t out err,
    run_process env t (snapper_argv config) = Exited 0 out err ->
    exists r,
      get_latest_snapshot_num env config t
      = (Ret r, EvRun true (snapper_argv config) :: t) /\
      (forall n,
          r = Some n <->
          exists older line newer,
            splitlines (strip out) = older ++ line :: newer /\
            contains marker line = true /\
            Py.int (split_space_head line) = Some n /\
            Forall no_number newer) /\
      (r = None <-> Forall no_number (splitlines (strip out))).
Proof.
  intros env config t out err H.
  rewrite (get_latest_snapshot_num_ok env config t H).
  eexists. split; [reflexivity|]. split.
  - intros n. rewrite scan_latest_some. split.
    + intros (b & x & a & E & Hc & Hi & Hb).
      exists (rev a), x, (rev b). repeat split; auto.
      * rewrite <- (rev_involutive (splitlines (strip out))), E.
        rewrite rev_app_distr. simpl. now rewrite <- app_assoc.
      * now apply Forall_rev.
    + intros (o & x & nw & E & Hc & Hi & Hb).
      exists (rev nw), x, (rev o). repeat split; auto.
      * rewrite E, rev_app_distr. simpl. now rewrite <- app_assoc.
      * now apply Forall_rev.
  - rewrite scan_latest_none. split; intros F.
    + rewrite <- (rev_involutive (splitlines (strip out))). now apply Forall_rev.
    + now apply Forall_rev.
Qed.

Lemma C5_latest_is_newest_marked_line_with_a_number_witness :
  exists r,
    get_latest_snapshot_num Sample.all_ok "root" []
    = (Ret r, [EvRun true (snapper_argv "root")]) /\
    (forall n,
        r = Some n <->
        exists older line newer,
          splitlines (strip Sample.listing) = older ++ line :: newer /\
          contains marker line = true /\
          Py.int (split_space_head line) = Some n /\
          Forall no_number newer) /\
    (r = None <-> Forall no_number (splitlines (strip Sample.listing))).
Proof.
  apply (C5_latest_is_newest_marked_line_with_a_number
           Sample.all_ok "root" [] (out := Sample.listing) (err := "")).
  reflexivity.
Defined.

(** ** The enumerator (C7) *)

Lemma get_snapshots_loop_run env path names :
  forall acc t, exists new,
    get_snapshots_loop env path names acc t
    = (Ret (acc ++ pick (entry_snapshot env path) names), new ++ t)
    /\ Forall debug_log new.
Proof.
  induction names as [|entry names IH]; intros acc t; simpl.
  - exists []. rewrite app_nil_r. split; [reflexivity|constructor].
  - unfold entry_snapshot at 1. rewrite child_name.
    destruct (path_is_dir env (child path entry)); simpl.
    + destruct (Py.int entry) as [num|]; simpl.
      * destruct (IH (acc ++ [(num, child path entry)]) t) as [new [E F]].
        exists new. rewrite E, <- app_assoc. split; [reflexivity|exact F].
      * unfold bind, log, emit.
        destruct (IH acc (EvLog AppLogger DEBUG (MsgIgnoreNonNum (child path entry)) :: t))
          as [new [E F]].
        exists (new ++ [EvLog AppLogger DEBUG (MsgIgnoreNonNum (child path entry))]).
        rewrite E, <- app_assoc. split; [reflexivity|].
        apply Forall_app. split; [exact F|]. repeat constructor. now eexists.
    + unfold bind, log, emit.
      destruct (IH acc (EvLog AppLogger DEBUG (MsgIgnoreNonDir (child path entry)) :: t))
        as [new [E F]].
      exists (new ++ [EvLog AppLogger DEBUG (MsgIgnoreNonDir (child path entry))]).
      rewrite E, <- app_assoc. split; [reflexivity|].
      apply Forall_app. split; [exact F|]. repeat constructor. now eexists.
Qed.




(** ** Absolute paths (C10) *)

Lemma subprocess_run_no_assertion env capture argv :
  avoids is_assertion (subprocess_run env capture argv).
Proof.
  intros t a Ha. unfold subprocess_run in Ha.
  destruct (run_process env t argv); simpl in Ha; [|discriminate].
  injection Ha as <-. discriminate.
Qed.

Lemma strip_attr_no_assertion x : avoids is_assertion (strip_attr x).
Proof.
  destruct x; simpl; [apply avoids_ret|apply avoids_raise; discriminate].
Qed.

#[local] Hint Resolve subprocess_run_no_assertion strip_attr_no_assertion : effects.

Lemma log_external_output_no_assertion out err lvl :
  avoids is_assertion (log_external_output out err lvl).
Proof.
  unfold log_external_output, log. avoids_seq.
  apply avoids_bind; [|intros _ _ _ _];
    match goal with |- context [String.eqb ?x ""] => destruct (String.eqb x "") end;
    auto with effects.
Qed.

#[local] Hint Resolve log_external_output_no_assertion : effects.

Lemma get_latest_snapshot_num_no_assertion env config :
  avoids is_assertion (get_latest_snapshot_num env config).
Proof.
  unfold get_latest_snapshot_num, log. avoids_seq.
  match goal with |- context [negb ?b] => destruct (negb b) end;
    [|auto with effects].
  avoids_seq. apply avoids_bind.
  - match goal with |- context [contains ?p ?x] => destruct (contains p x) end;
      auto with effects.
  - intros _ _ _ _. avoids_seq. apply avoids_exit. discriminate.
Qed.

Lemma get_snapshot_root_path_run env remote config t :
  let path := absolute (getcwd env) (from_segments [remote; config]) in
  get_snapshot_root_path env remote config t = (Ret path, t) \/
  get_snapshot_root_path env remote config t
  = (Exit 1, EvLog AppLogger ERROR (MsgRootNotFound path) :: t).
Proof.
  unfold get_snapshot_root_path.
  destruct (negb (path_exists env _) || negb (path_is_dir env _))%bool;
    [right|left]; reflexivity.
Qed.

Lemma get_snapshots_children env path t snapshots t' :
  get_snapshots env path t = (Ret snapshots, t') ->
  Forall (fun s : snapshot => exists entry, snd s = child path entry) snapshots.
Proof.
  unfold get_snapshots. destruct (listdir env path) as [names|]; [|discriminate].
  destruct (get_snapshots_loop_run env path names [] t) as [new [E _]].
  rewrite E. intros H. injection H as <- _. simpl.
  apply Forall_forall. intros [num p] Hin. apply in_pick in Hin as [entry [_ He]].
  unfold entry_snapshot in He.
  destruct (path_is_dir env (child path entry)); [|discriminate].
  destruct (Py.int entry); [|discriminate].
  injection He as _ <-. now exists entry.
Qed.

(** No enumerated path is [PosixPath("/")]: the guard of line 241 never
    fires on what [get_snapshots] returns. *)
Lemma get_snapshots_never_root env path t snapshots t' :
  get_snapshots env path t = (Ret snapshots, t') ->
  Forall (fun s : snapshot => path_eqb (snd s) root_path = false) snapshots.
Proof.
  intros H. apply get_snapshots_children in H.
  eapply Forall_impl; [|exact H]. intros s [entry ->]. apply child_not_root.
Qed.

Lemma retention_no_assertion env max_keep latest snapshots :
  Forall (fun s : snapshot => is_absolute (snd s) = true) snapshots ->
  avoids is_assertion (retention env max_keep latest snapshots).
Proof.
  intros Habs. unfold retention.
  apply avoids_bind; [now apply retention_loop_no_assertion|].
  intros [dc da] _ _ _. unfold log. avoids_seq.
  destruct (da >? dc); [apply avoids_exit; discriminate|auto with effects].
Qed.

(** C10: with the working directory an absolute path, as the operating
    system reports it, [get_snapshot_root_path] returns an absolute path
    or exits; what [get_snapshots] returns for an absolute root are
    children of that root, absolute too; and [main], once its own
    assertion on max_keep holds, never ends in an [AssertionError]: the
    assertion of [delete_snapshot] holds at every call. *)
Theorem C10_delete_snapshot_assertion_holds_in_main :
  forall env config remote max_keep t,
    is_absolute (from_segments [getcwd env]) = true ->
    (exists path,
        is_absolute path = true /\
        (get_snapshot_root_path env remote config t = (Ret path, t) \/
         fst (get_snapshot_root_path env remote config t) = Exit 1)) /\
    (forall root snapshots t',
        is_absolute root = true ->
        get_snapshots env root t = (Ret snapshots, t') ->
        Forall (fun s : snapshot =>
                  (exists entry, snd s = child root entry) /\
                  is_absolute (snd s) = true) snapshots) /\
    (0 <= max_keep ->
     fst (main env config remote max_keep t) <> Raise AssertionError).
Proof.
  intros env config remote max_keep t Hcwd.
  assert (Hchildren : forall root snapshots t0 t',
             is_absolute root = true ->
             get_snapshots env root t0 = (Ret snapshots, t') ->
             Forall (fun s : snapshot =>
                       (exists entry, snd s = child root entry) /\
                       is_absolute (snd s) = true) snapshots).
  { intros root snapshots t0 t' Hroot H. apply get_snapshots_children in H.
    eapply Forall_impl; [|exact H]. intros s [entry Hs]. split; [eauto|].
    rewrite Hs. now rewrite child_is_absolute. }
  split; [|split].
  - exists (absolute (getcwd env) (from_segments [remote; config])).
    split; [now apply absolute_is_absolute|].
    destruct (get_snapshot_root_path_run env remote config t) as [H|H];
      [now left|right; now rewrite H].
  - intros root snapshots t'. apply Hchildren.
  - intros Hk Hmain.
    assert (Hav : avoids is_assertion (main env config remote max_keep)).
    { unfold main. apply Z.geb_le in Hk. rewrite Hk. simpl negb. cbv iota.
      apply avoids_bind.
      { destruct (max_keep =? 0); [apply avoids_emit|apply avoids_ret]. }
      intros _ _ _ _.
      apply avoids_bind; [apply get_latest_snapshot_num_no_assertion|].
      intros latest _ _ _.
      apply avoids_bind; [apply avoids_emit|intros _ _ _ _].
      apply avoids_bind.
      { intros t0 a Ha.
        destruct (get_snapshot_root_path_run env remote config t0) as [H|H];
          rewrite H in Ha; simpl in Ha; [discriminate|].
        injection Ha as <-. discriminate. }
      intros root t0 t1 Hroot.
      assert (Habs : is_absolute root = true).
      { destruct (get_snapshot_root_path_run env remote config t0) as [H|H];
          rewrite H in Hroot; [|discriminate].
        injection Hroot as <- _. now apply absolute_is_absolute. }
      apply avoids_bind.
      { intros t2 a Ha. unfold get_snapshots in Ha.
        destruct (listdir env root) as [names|].
        - destruct (get_snapshots_loop_run env root names [] t2) as [new [E _]].
          rewrite E in Ha. discriminate.
        - simpl in Ha. injection Ha as <-. discriminate. }
      intros snapshots t2 t3 Hsn.
      apply avoids_bind; [apply avoids_emit|intros _ _ _ _].
      apply retention_no_assertion.
      apply (Hchildren root snapshots t2 t3 Habs) in Hsn.
      eapply Permutation_Forall; [symmetry; apply sort_by_num_perm|].
      eapply Forall_impl; [|exact Hsn]. now intros s [_ H]. }
    apply (Hav t (ARaise AssertionError)); [now rewrite Hmain|reflexivity].
Qed.

Lemma C10_delete_snapshot_assertion_holds_in_main_witness :
  fst (main Sample.all_ok "root" "/mnt/backup" 2 []) <> Raise AssertionError.
Proof.
  apply (proj2 (proj2 (C10_delete_snapshot_assertion_holds_in_main
                         Sample.all_ok "root" "/mnt/backup" 2 [] eq_refl))).
  lia.
Defined.

(** * Further properties of the script *)

(** ** The logging set-up *)

(** X1: after [set_up_logging], a record logged on [logger] is dropped
    when its level is below the logger's level, and is otherwise written
    exactly once: to standard output when its level is at most INFO, to
    standard error when it is WARNING or above, whether or not colorlog is
    used. *)
Theorem X1_set_up_logging_routes_each_record_once :
  forall colorlog_importable log_level use_color lvl,
    delivered (fst (set_up_logging colorlog_importable log_level use_color)) lvl
    = if levelno lvl <? levelno log_level then []
      else if levelno lvl <=? levelno INFO then [Stdout]
      else [Stderr].
Proof.
  intros avail log_level use_color lvl.
  destruct avail, use_color, log_level, lvl; reflexivity.
Qed.

(** X2: with the level [main] derives from the count of [-v], a record
    reaches standard output exactly when it is an INFO record and [-v] was
    given at least once, or a DEBUG record and [-v] was given at least
    twice (so without [-v] nothing is printed there, the closing summary
    included); WARNING and ERROR records reach standard error at every
    verbosity. *)
Theorem X2_verbosity_decides_what_is_shown :
  forall colorlog_importable use_color verbose,
    let st := fst (set_up_logging colorlog_importable
                                  (log_level_of_verbose verbose) use_color) in
    (forall lvl,
        In Stdout (delivered st lvl) <->
        (lvl = INFO /\ 1 <= verbose) \/ (lvl = DEBUG /\ 2 <= verbose))
    /\ delivered st WARNING = [Stderr]
    /\ delivered st ERROR = [Stderr].
Proof.
  intros avail use_color verbose st. subst st.
  assert (Hlevel : (log_level_of_verbose verbose = DEBUG /\ 2 <= verbose)
                   \/ (log_level_of_verbose verbose = INFO /\ verbose = 1)
                   \/ (log_level_of_verbose verbose = WARNING /\ verbose <= 0)).
  { unfold log_level_of_verbose.
    destruct (verbose >=? 2) eqn:E2; [left; split; [reflexivity|lia]|].
    destruct (verbose =? 1) eqn:E1; [right; left; split; [reflexivity|lia]|].
    right; right. split; [reflexivity|lia]. }
  destruct Hlevel as [[-> Hv]|[[-> Hv]|[-> Hv]]];
    (split; [|split; destruct avail, use_color; reflexivity]);
    intros lvl; destruct avail, use_color, lvl; simpl;
    (split;
     [intros H; repeat (destruct H as [H|H]; try discriminate); try contradiction;
      first [left; split; [reflexivity|lia] | right; split; [reflexivity|lia]]
     |intros [[H1 H2]|[H1 H2]]; try discriminate; try lia; now left]).
Qed.

(** X3: [set_up_logging] logs its one warning exactly when colour was
    asked for and colorlog cannot be imported, and that warning goes to
    standard error unless the logger's level is above WARNING; colorlog's
    handlers and formatter are used exactly when colour was asked for and
    the import works; the two handlers have the same streams and
    thresholds either way. *)
Theorem X3_set_up_logging_falls_back_without_colorlog :
  forall colorlog_importable log_level use_color,
    let st := fst (set_up_logging colorlog_importable log_level use_color) in
    let records := snd (set_up_logging colorlog_importable log_level use_color) in
    (records <> [] <-> use_color = true /\ colorlog_importable = false)
    /\ (forall lvl text,
           In (lvl, text) records ->
           lvl = WARNING /\
           delivered st lvl = if levelno log_level <=? levelno WARNING
                              then [Stderr] else [])
    /\ (Forall (fun h => h_module h = ColorlogModule /\
                         h_formatter h = ColoredFormatter) (lg_handlers st)
        <-> use_color = true /\ colorlog_importable = true)
    /\ map (fun h => (h_stream h, h_level h)) (lg_handlers st)
       = [(Stdout, DEBUG); (Stderr, WARNING)].
Proof.
  intros avail log_level use_color st records. subst st records.
  assert (Hwarn : forall lvl text,
             In (lvl, text)
                [(WARNING, "Unable to import colorlog dependency for colored logging."%string)] ->
             lvl = WARNING).
  { intros lvl text [H|[]]. now injection H as <- _. }
  destruct avail, use_color; simpl; (split; [|split; [|split]]);
    try reflexivity.
  - split; [intros H; now contradiction H|intros [_ H]; discriminate].
  - intros lvl text [].
  - split; [intros _; now split|intros _; repeat constructor].
  - split; [intros H; now contradiction H|intros [H _]; discriminate].
  - intros lvl text [].
  - split; [intros H|intros [H _]; discriminate].
    inversion H as [|h l [Hm _] _]. discriminate.
  - split; [intros _; now split|intros _; discriminate].
  - intros lvl text H. apply Hwarn in H. subst lvl. split; [reflexivity|].
    now destruct log_level.
  - split; [intros H|intros [_ H]; discriminate].
    inversion H as [|h l [Hm _] _]. discriminate.
  - split; [intros H; now contradiction H|intros [H _]; discriminate].
  - intros lvl text [].
  - split; [intros H|intros [H _]; discriminate].
    inversion H as [|h l [Hm _] _]. discriminate.
Qed.

(** ** Stripping *)

Lemma lstrip_by_head (f : ascii -> bool) (s : string) c r :
  lstrip_by f s = String c r -> f c = false.
Proof.
  induction s as [|a s IH]; simpl; [discriminate|].
  destruct (f a) eqn:E; [exact IH|]. intros H. injection H as <- _. exact E.
Qed.

Lemma lstrip_by_fixed (f : ascii -> bool) c r :
  f c = false -> lstrip_by f (String c r) = String c r.
Proof. intros H. simpl. now rewrite H. Qed.

Lemma rstrip_by_last (f : ascii -> bool) (s : string) :
  forall p c, rstrip_by f s = (p ++ String c EmptyString)%string -> f c = false.
Proof.
  induction s as [|a s IH]; intros p c; simpl.
  - destruct p; discriminate.
  - destruct (rstrip_by f s) as [|b r] eqn:E.
    + destruct (f a) eqn:Ea.
      * destruct p; discriminate.
      * destruct p as [|x p]; simpl; intros H.
        -- injection H as <-. exact Ea.
        -- injection H as _ H. destruct p; discriminate.
    + destruct p as [|x p]; simpl; intros H.
      * discriminate.
      * injection H as _ H. apply (IH p c). exact H.
Qed.

Lemma rstrip_by_head (f : ascii -> bool) c (s : string) :
  f c = false -> exists r, rstrip_by f (String c s) = String c r.
Proof.
  intros H. simpl. destruct (rstrip_by f s); [rewrite H|]; eauto.
Qed.

Lemma rstrip_by_idempotent (f : ascii -> bool) (s : string) :
  rstrip_by f (rstrip_by f s) = rstrip_by f s.
Proof.
  induction s as [|a s IH]; simpl; [reflexivity|].
  destruct (rstrip_by f s) as [|b r] eqn:E.
  - destruct (f a) eqn:Ea; simpl; [reflexivity|]. now rewrite Ea.
  - change (rstrip_by f (String a (String b r))) with
      (match rstrip_by f (String b r) with
       | EmptyString => if f a then EmptyString else String a EmptyString
       | String x y => String a (String x y)
       end).
    now rewrite IH.
Qed.

Lemma strip_trimmed (s : string) : trimmed (strip s).
Proof.
  unfold strip. split.
  - intros c r H. destruct (lstrip_by isspace s) as [|a u] eqn:E; [discriminate|].
    pose proof (@lstrip_by_head isspace s a u E) as Ha.
    destruct (@rstrip_by_head isspace a u Ha) as [r' Hr]. rewrite Hr in H.
    injection H as <- _. exact Ha.
  - intros p c H. eapply rstrip_by_last. exact H.
Qed.

Lemma strip_idempotent (s : string) : strip (strip s) = strip s.
Proof.
  unfold strip. destruct (lstrip_by isspace s) as [|a u] eqn:E; [reflexivity|].
  pose proof (@lstrip_by_head isspace s a u E) as Ha.
  destruct (@rstrip_by_head isspace a u Ha) as [r' Hr]. rewrite Hr.
  rewrite (@lstrip_by_fixed isspace a r' Ha), <- Hr. apply rstrip_by_idempotent.
Qed.

(** ** Logging the output of a tool *)

(** ** Logging the output of a tool *)

Lemma log_external_output_text (out err : string) (lvl : level) (t : trace) :
  log_external_output (Some out) (Some err) lvl t
  = (Ret tt, external_records out err lvl ++ t).
Proof.
  unfold log_external_output, external_records, bind, strip_attr, ret, log, emit.
  destruct (String.eqb (strip err) ""), (String.eqb (strip out) ""); reflexivity.
Qed.

(** X4: given two texts, [log_external_output] returns normally after
    logging, at the level asked for, the stripped error text and then the
    stripped output text, each only when something is left of it: a
    message it logs is never empty and has no blank at either end. Given
    [None] for either, it raises [AttributeError] and logs nothing. *)
Theorem X4_log_external_output_logs_stripped_nonempty_text :
  forall (out err : string) (lvl : level) (t : trace),
    log_external_output (Some out) (Some err) lvl t
    = (Ret tt, external_records out err lvl ++ t)
    /\ (forall e, In e (external_records out err lvl) ->
                  exists text, e = EvLog AppLogger lvl (MsgExternal text) /\
                               text <> ""%string /\ trimmed text /\
                               (text = strip out \/ text = strip err))
    /\ (List.length (external_records out err lvl) <= 2)%nat
    /\ log_external_output None (Some err) lvl t = (Raise AttributeError, t)
    /\ log_external_output (Some out) None lvl t = (Raise AttributeError, t)
    /\ log_external_output None None lvl t = (Raise AttributeError, t).
Proof.
  intros out err lvl t. split; [apply log_external_output_text|].
  split; [|split; [|repeat split]].
  - intros e He. unfold external_records in He.
    apply in_app_or in He as [He|He].
    + destruct (String.eqb (strip out) "") eqn:E; [destruct He|].
      destruct He as [<-|[]]. exists (strip out). repeat split; auto.
      * now apply String.eqb_neq.
      * apply strip_trimmed.
      * apply strip_trimmed.
    + destruct (String.eqb (strip err) "") eqn:E; [destruct He|].
      destruct He as [<-|[]]. exists (strip err). repeat split; auto.
      * now apply String.eqb_neq.
      * apply strip_trimmed.
      * apply strip_trimmed.
  - unfold external_records. rewrite length_app.
    destruct (String.eqb (strip out) ""), (String.eqb (strip err) ""); simpl; lia.
Qed.

(** ** What [main] does before the retention loop *)

Lemma main_run env config remote max_keep t :
  0 <= max_keep ->
  main env config remote max_keep t =
  let t0 := if max_keep =? 0
            then EvLog RootLogger WARNING MsgMaxKeepZero :: t else t in
  match get_latest_snapshot_num env config t0 with
  | (Ret latest, t1) =>
      match get_snapshot_root_path env remote config
              (EvLog AppLogger INFO (MsgLatest latest) :: t1) with
      | (Ret root, t3) =>
          match get_snapshots env root t3 with
          | (Ret snapshots, t4) =>
              retention env max_keep latest (sort_by_num snapshots)
                (EvLog AppLogger DEBUG
                   (MsgSnapshotList (map fst (sort_by_num snapshots))) :: t4)
          | (Exit c, t4) => (Exit c, t4)
          | (Raise e, t4) => (Raise e, t4)
          end
      | (Exit c, t3) => (Exit c, t3)
      | (Raise e, t3) => (Raise e, t3)
      end
  | (Exit c, t1) => (Exit c, t1)
  | (Raise e, t1) => (Raise e, t1)
  end.
Proof.
  intros Hk. unfold main. apply Z.geb_le in Hk. rewrite Hk. cbn [negb].
  cbv zeta. unfold bind at 1.
  destruct (max_keep =? 0); unfold log, emit, ret; cbv beta iota;
    unfold bind at 1;
    (destruct (get_latest_snapshot_num env config _) as [[latest|c|e] t1];
     [|reflexivity|reflexivity]);
    unfold bind at 1; cbv beta iota; unfold bind at 1;
    (destruct (get_snapshot_root_path env remote config _) as [[root|c|e] t3];
     [|reflexivity|reflexivity]);
    unfold bind at 1;
    (destruct (get_snapshots env root t3) as [[snapshots|c|e] t4];
     [|reflexivity|reflexivity]);
    reflexivity.
Qed.

Lemma get_latest_snapshot_num_failed env config t rc out err :
  run_process env t (snapper_argv config) = Exited rc out err ->
  rc <> 0 ->
  get_latest_snapshot_num env config t
  = (Exit 1,
     external_records (strip out) (strip err) DEBUG
     ++ EvLog AppLogger ERROR
          (if contains "No permissions" (strip err)
           then MsgNoPermissions config else MsgSnapperFailed config)
     :: EvRun true (snapper_argv config) :: t).
Proof.
  intros H Hrc. apply Z.eqb_neq in Hrc.
  unfold get_latest_snapshot_num. unfold bind at 1. unfold subprocess_run.
  fold (snapper_argv config). rewrite H. cbn [stdout stderr returncode].
  unfold bind at 1, strip_attr at 1, ret at 1. rewrite Hrc. cbn [negb].
  unfold bind at 1, strip_attr at 1, ret at 1.
  unfold bind at 1.
  destruct (contains "No permissions" (strip err)); unfold log, emit;
    unfold bind at 1; rewrite log_external_output_text; reflexivity.
Qed.

Lemma get_latest_snapshot_num_not_started env config t :
  run_process env t (snapper_argv config) = SpawnError ->
  get_latest_snapshot_num env config t
  = (Raise OSError, EvRun true (snapper_argv config) :: t).
Proof.
  intros H. unfold get_latest_snapshot_num, bind, subprocess_run.
  fold (snapper_argv config). now rewrite H.
Qed.

Lemma deletion_free_app (l1 l2 : list event) :
  deletion_free l1 -> deletion_free l2 -> deletion_free (l1 ++ l2).
Proof. intros H1 H2. apply Forall_app. now split. Qed.

Lemma deletion_free_log lg lvl m (l : list event) :
  deletion_free l -> deletion_free (EvLog lg lvl m :: l).
Proof. intros H. constructor; [|exact H]. split; [reflexivity|discriminate]. Qed.

Lemma deletion_free_external out err lvl :
  deletion_free (external_records out err lvl).
Proof.
  unfold external_records.
  destruct (String.eqb (strip out) ""), (String.eqb (strip err) ""); simpl;
    repeat apply deletion_free_log; constructor.
Qed.

Lemma deletion_free_snapper config (l : list event) :
  deletion_free l -> deletion_free (EvRun true (snapper_argv config) :: l).
Proof. intros H. constructor; [|exact H]. split; [reflexivity|discriminate]. Qed.

(** The warning of line 212, when it is logged. *)
Lemma max_keep_warning max_keep (t : trace) :
  exists pre,
    (if max_keep =? 0 then EvLog RootLogger WARNING MsgMaxKeepZero :: t else t)
    = pre ++ t /\ deletion_free pre.
Proof.
  destruct (max_keep =? 0).
  - eexists [_]. split; [reflexivity|]. apply deletion_free_log. constructor.
  - exists []. split; [reflexivity|constructor].
Qed.

(** X5: when the listing tool does not exit with 0, [main] stops before
    any snapshot is touched: on a non-zero status it logs one error, the
    one about permissions exactly when the tool's error text contains
    ["No permissions"], and ends in [exit(1)]; when the tool cannot be
    started it ends in the exception [subprocess.run] raises. Neither the
    volume removal tool nor [rmtree] is started. *)
Theorem X5_listing_failure_is_fatal :
  forall env config remote max_keep t,
    0 <= max_keep ->
    (forall rc out err,
        (forall h, run_process env h (snapper_argv config) = Exited rc out err) ->
        rc <> 0 ->
        exists new,
          main env config remote max_keep t = (Exit 1, new ++ t) /\
          deletion_free new /\
          In (EvLog AppLogger ERROR
                (if contains "No permissions" (strip err)
                 then MsgNoPermissions config else MsgSnapperFailed config)) new /\
          (forall m, In (EvLog AppLogger ERROR m) new ->
                     m = if contains "No permissions" (strip err)
                         then MsgNoPermissions config else MsgSnapperFailed config))
    /\ ((forall h, run_process env h (snapper_argv config) = SpawnError) ->
        exists new,
          main env config remote max_keep t = (Raise OSError, new ++ t) /\
          deletion_free new).
Proof.
  intros env config remote max_keep t Hk.
  destruct (max_keep_warning max_keep t) as [pre [Epre Fpre]].
  split.
  - intros rc out err Hrun Hrc. rewrite (main_run env config remote t Hk). cbv zeta.
    rewrite (get_latest_snapshot_num_failed env config _ (Hrun _) Hrc), Epre.
    eexists (external_records (strip out) (strip err) DEBUG ++ _ :: _ :: pre).
    split; [now rewrite <- app_assoc|]. split; [|split].
    + apply deletion_free_app; [apply deletion_free_external|].
      apply deletion_free_log, deletion_free_snapper, Fpre.
    + apply in_or_app. right. now left.
    + intros m Hm. apply in_app_or in Hm as [Hm|Hm].
      * unfold external_records in Hm.
        destruct (String.eqb (strip (strip out)) ""),
          (String.eqb (strip (strip err)) ""); simpl in Hm;
          repeat (destruct Hm as [Hm|Hm]; [discriminate|]); destruct Hm.
      * destruct Hm as [Hm|[Hm|Hm]]; [now injection Hm|discriminate|].
        exfalso. clear - Hm Epre.
        destruct (max_keep =? 0).
        -- destruct pre as [|e pre]; [simpl in Epre|].
           ++ assert (Hl : List.length (EvLog RootLogger WARNING MsgMaxKeepZero :: t)
                           = List.length t) by now rewrite Epre.
              simpl in Hl. lia.
           ++ assert (Hl : List.length (EvLog RootLogger WARNING MsgMaxKeepZero :: t)
                           = List.length ((e :: pre) ++ t)) by now rewrite Epre.
              simpl in Hl. rewrite length_app in Hl.
              destruct pre; [|simpl in Hl; lia].
              simpl in Epre. injection Epre as <-.
              destruct Hm as [Hm|[]]. discriminate.
        -- destruct pre as [|e pre]; [destruct Hm|].
           assert (Hl : List.length t = List.length ((e :: pre) ++ t))
             by now rewrite <- Epre.
           simpl in Hl. rewrite length_app in Hl. lia.
  - intros Hrun. rewrite (main_run env config remote t Hk). cbv zeta.
    rewrite (get_latest_snapshot_num_not_started env config _ (Hrun _)), Epre.
    eexists (_ :: pre). split; [reflexivity|].
    apply deletion_free_snapper, Fpre.
Qed.

Lemma X5_listing_failure_is_fatal_witness :
  (exists new,
      main Failing.snapper_denied "root" "/mnt/backup" 2 [] = (Exit 1, new ++ []) /\
      deletion_free new /\
      In (EvLog AppLogger ERROR (MsgNoPermissions "root")) new /\
      (forall m, In (EvLog AppLogger ERROR m) new -> m = MsgNoPermissions "root"))
  /\ (exists new,
         main Failing.snapper_missing "root" "/mnt/backup" 2 []
         = (Raise OSError, new ++ []) /\
         deletion_free new).
Proof.
  split.
  - apply (proj1 (X5_listing_failure_is_fatal
                    Failing.snapper_denied "root" "/mnt/backup" (max_keep := 2) []
                    ltac:(lia))
             1 "" "No permissions.").
    + intros h. reflexivity.
    + lia.
  - apply (proj2 (X5_listing_failure_is_fatal
                    Failing.snapper_missing "root" "/mnt/backup" (max_keep := 2) []
                    ltac:(lia))).
    intros h. reflexivity.
Defined.

(** ** The snapshot root *)

Lemma get_snapshot_root_path_missing env remote config t :
  (path_exists env (absolute (getcwd env) (from_segments [remote; config]))
   && path_is_dir env (absolute (getcwd env) (from_segments [remote; config])))%bool
  = false ->
  get_snapshot_root_path env remote config t
  = (Exit 1,
     EvLog AppLogger ERROR
       (MsgRootNotFound (absolute (getcwd env) (from_segments [remote; config])))
     :: t).
Proof.
  intros H. unfold get_snapshot_root_path. cbv zeta.
  rewrite <- negb_andb, H. reflexivity.
Qed.

Lemma get_snapshot_root_path_found env remote config t :
  (path_exists env (absolute (getcwd env) (from_segments [remote; config]))
   && path_is_dir env (absolute (getcwd env) (from_segments [remote; config])))%bool
  = true ->
  get_snapshot_root_path env remote config t
  = (Ret (absolute (getcwd env) (from_segments [remote; config])), t).
Proof.
  intros H. unfold get_snapshot_root_path. cbv zeta.
  rewrite <- negb_andb, H. reflexivity.
Qed.

(** X6: when [remote/config] does not exist or is no directory, [main]
    ends in [exit(1)] right after the listing: it logs the error naming
    the path it looked for and starts neither the volume removal tool nor
    [rmtree]. *)
Theorem X6_missing_snapshot_root_is_fatal :
  forall env config remote max_keep t out err,
    0 <= max_keep ->
    (forall h, run_process env h (snapper_argv config) = Exited 0 out err) ->
    let path := absolute (getcwd env) (from_segments [remote; config]) in
    (path_exists env path && path_is_dir env path)%bool = false ->
    exists new,
      main env config remote max_keep t = (Exit 1, new ++ t) /\
      deletion_free new /\
      In (EvLog AppLogger ERROR (MsgRootNotFound path)) new.
Proof.
  intros env config remote max_keep t out err Hk Hrun path Hmiss.
  destruct (max_keep_warning max_keep t) as [pre [Epre Fpre]].
  rewrite (main_run env config remote t Hk). cbv zeta.
  rewrite (get_latest_snapshot_num_ok env config _ (Hrun _)).
  rewrite (get_snapshot_root_path_missing env remote config _ Hmiss), Epre.
  eexists (_ :: _ :: _ :: pre). split; [reflexivity|]. split.
  - apply deletion_free_log, deletion_free_log, deletion_free_snapper, Fpre.
  - now left.
Qed.

Lemma X6_missing_snapshot_root_is_fatal_witness :
  exists new,
    main Failing.nothing_mounted "root" "/mnt/backup" 2 [] = (Exit 1, new ++ []) /\
    deletion_free new /\
    In (EvLog AppLogger ERROR (MsgRootNotFound Sample.base)) new.
Proof.
  apply (X6_missing_snapshot_root_is_fatal
           Failing.nothing_mounted "root" "/mnt/backup" (max_keep := 2) []
           (out := Sample.listing) (err := "")).
  - lia.
  - intros h. reflexivity.
  - reflexivity.
Defined.

Lemma from_segments_single_root (seg : string) :
  root (from_segments [seg]) = fst (splitroot seg).
Proof.
  cbn [from_segments root]. now destruct (splitroot seg).
Qed.

Lemma splitroot_rooted c rest :
  is_slash c = true -> fst (splitroot (String c rest)) <> NoRoot.
Proof.
  intros H. unfold splitroot. rewrite H.
  destruct (Nat.eqb _ 2); simpl; discriminate.
Qed.

(** X7: a [config] that starts with a slash replaces the remote
    altogether: [get_snapshot_root_path] then looks at the path [config]
    alone, whatever [remote] is. *)
Theorem X7_rooted_config_discards_remote :
  forall env remote remote' config c rest t,
    config = String c rest ->
    is_slash c = true ->
    from_segments [remote; config] = from_segments [config]
    /\ is_absolute (from_segments [remote; config]) = true
    /\ get_snapshot_root_path env remote config t
       = get_snapshot_root_path env remote' config t.
Proof.
  intros env remote remote' config c rest t -> Hc.
  assert (Hroot : forall r, from_segments [r; String c rest]
                            = from_segments [String c rest]
                            /\ is_absolute (from_segments [String c rest]) = true).
  { intros r. pose proof (@splitroot_rooted c rest Hc) as Hs.
    change (from_segments [r; String c rest]) with
      (match root (from_segments [String c rest]) with
       | NoRoot =>
           let (r0, rel) := splitroot r in
           mkPath r0 (filter keep_component (split_sep rel)
                      ++ parts (from_segments [String c rest]))
       | _ => from_segments [String c rest]
       end).
    unfold is_absolute.
    assert (Hr : root (from_segments [String c rest]) <> NoRoot).
    { rewrite from_segments_single_root. exact Hs. }
    destruct (root (from_segments [String c rest])); [contradiction| |]; now split. }
  destruct (Hroot remote) as [E1 A1]. destruct (Hroot remote') as [E2 _].
  split; [exact E1|]. split; [now rewrite E1|].
  unfold get_snapshot_root_path. now rewrite E1, E2.
Qed.

Lemma X7_rooted_config_discards_remote_witness :
  from_segments ["/mnt/backup"; "/etc"] = from_segments ["/etc"]
  /\ is_absolute (from_segments ["/mnt/backup"; "/etc"]) = true
  /\ get_snapshot_root_path Sample.all_ok "/mnt/backup" "/etc" []
     = get_snapshot_root_path Sample.all_ok "/srv" "/etc" [].
Proof.
  apply (X7_rooted_config_discards_remote
           Sample.all_ok "/mnt/backup" "/srv" (config := "/etc")
           (c := "/"%char) (rest := "etc") []).
  - reflexivity.
  - reflexivity.
Defined.

(** ** The enumerator, further *)

Lemma pick_length {A B} (f : A -> option B) (l : list A) :
  (List.length (pick f l) <= List.length l)%nat.
Proof.
  induction l as [|a l IH]; simpl; [lia|]. destruct (f a); simpl; lia.
Qed.

Lemma pick_rev {A B} (f : A -> option B) (l : list A) :
  pick f (rev l) = rev (pick f l).
Proof.
  induction l as [|a l IH]; simpl; [reflexivity|].
  rewrite pick_app, IH. simpl. destruct (f a); simpl; [reflexivity|].
  now rewrite app_nil_r.
Qed.

Lemma pick_none {A B} (f : A -> option B) (l : list A) :
  Forall (fun x => f x = None) l -> pick f l = [].
Proof.
  induction 1 as [|a l Ha _ IH]; simpl; [reflexivity|]. now rewrite Ha.
Qed.

Lemma child_entry_inj (p : PosixPath) (e1 e2 : string) :
  child p e1 = child p e2 -> e1 = e2.
Proof.
  unfold child. intros H. injection H as H. now apply app_inj_tail in H as [_ ->].
Qed.

Lemma entry_snapshot_path env path entry num p :
  entry_snapshot env path entry = Some (num, p) ->
  p = child path entry /\ Py.int entry = Some num /\ path_is_dir env p = true.
Proof.
  unfold entry_snapshot.
  destruct (path_is_dir env (child path entry)) eqn:Ed; [|discriminate].
  destruct (Py.int entry) as [m|]; [|discriminate].
  simpl. intros H. injection H as <- <-. auto.
Qed.

Lemma pick_entry_snapshot_nodup env path names :
  NoDup names -> NoDup (map snd (pick (entry_snapshot env path) names)).
Proof.
  induction 1 as [|entry names Hnin _ IH]; simpl; [constructor|].
  destruct (entry_snapshot env path entry) as [[num p]|] eqn:E; [|exact IH].
  simpl. constructor; [|exact IH].
  apply entry_snapshot_path in E as (-> & _ & _).
  intros Hin. apply in_map_iff in Hin as [[n' p'] [Hp Hin]]. simpl in Hp. subst p'.
  apply in_pick in Hin as [entry' [Hin' E']].
  apply entry_snapshot_path in E' as (E' & _ & _).
  apply child_entry_inj in E'. subst entry'. contradiction.
Qed.

Lemma get_snapshots_result env path names t :
  listdir env path = Some names ->
  exists new,
    get_snapshots env path t
    = (Ret (pick (entry_snapshot env path) names), new ++ t)
    /\ Forall debug_log new.
Proof.
  intros H. unfold get_snapshots. rewrite H.
  destruct (get_snapshots_loop_run env path names [] t) as [new [E F]].
  exists new. now split.
Qed.

(** X8: what [get_snapshots] returns is consistent: each snapshot lies
    directly under the scanned directory, is a directory, is never the
    path [/], and carries the number [int()] reads from its own name, so
    that one path never appears under two numbers; there are no more
    snapshots than directory entries, and distinct entries give distinct
    paths. When the directory cannot be listed the exception goes up and
    nothing is logged. *)
Theorem X8_get_snapshots_is_consistent :
  forall env path t,
    (listdir env path = None -> get_snapshots env path t = (Raise OSError, t))
    /\ (forall snapshots t',
           get_snapshots env path t = (Ret snapshots, t') ->
           (forall num p,
               In (num, p) snapshots ->
               Py.int (name p) = Some num /\
               (exists entry, p = child path entry) /\
               path_is_dir env p = true /\
               path_eqb p root_path = false)
           /\ (forall n1 n2 p,
                  In (n1, p) snapshots -> In (n2, p) snapshots -> n1 = n2)
           /\ (forall names,
                  listdir env path = Some names ->
                  (List.length snapshots <= List.length names)%nat /\
                  (NoDup names -> NoDup (map snd snapshots)))).
Proof.
  intros env path t. split.
  - intros H. unfold get_snapshots. now rewrite H.
  - intros snapshots t' Hget.
    destruct (listdir env path) as [names|] eqn:Hls.
    2: { unfold get_snapshots in Hget. rewrite Hls in Hget. discriminate. }
    destruct (get_snapshots_result env path t Hls) as [new [E _]].
    rewrite E in Hget. injection Hget as <- _.
    assert (Hin : forall num p,
               In (num, p) (pick (entry_snapshot env path) names) ->
               Py.int (name p) = Some num /\
               (exists entry, p = child path entry) /\
               path_is_dir env p = true /\
               path_eqb p root_path = false).
    { intros num p H. apply in_pick in H as [entry [_ He]].
      apply entry_snapshot_path in He as (-> & Hi & Hd).
      rewrite child_name. repeat split; eauto. apply child_not_root. }
    split; [exact Hin|]. split.
    + intros n1 n2 p H1 H2. apply Hin in H1 as [H1 _]. apply Hin in H2 as [H2 _].
      congruence.
    + intros names' Hn. injection Hn as <-. split.
      * apply pick_length.
      * apply pick_entry_snapshot_nodup.
Qed.

Lemma X8_get_snapshots_is_consistent_witness :
  NoDup (map snd (pick (entry_snapshot Sample.all_ok Sample.base) Sample.dir_names)).
Proof.
  destruct (proj2 (X8_get_snapshots_is_consistent Sample.all_ok Sample.base [])
              (pick (entry_snapshot Sample.all_ok Sample.base) Sample.dir_names)
              _ eq_refl) as (_ & _ & H).
  apply (H Sample.dir_names eq_refl).
  repeat constructor; simpl; intuition discriminate.
Defined.

(** ** The events and the endings of [main] *)

Lemma extends_bind_result {A B} P (m : M A) (f : A -> M B) :
  extends P m ->
  (forall a t t', m t = (Ret a, t') -> extends P (f a)) ->
  extends P (bind m f).
Proof.
  intros Hm Hf t. unfold bind. destruct (Hm t) as [n1 [E1 F1]].
  destruct (m t) as [[a|c|e] t'] eqn:E; simpl in E1; subst t'.
  - destruct (Hf a t (n1 ++ t) E (n1 ++ t)) as [n2 [E2 F2]].
    exists (n2 ++ n1). rewrite E2, app_assoc. split; [reflexivity|].
    apply Forall_app; now split.
  - now exists n1.
  - now exists n1.
Qed.

Lemma avoids_weaken {A} (bad bad' : abnormal -> Prop) (m : M A) :
  (forall a, bad' a -> bad a) -> avoids bad m -> avoids bad' m.
Proof. intros H Hm t a Ha Hb. exact (Hm t a Ha (H a Hb)). Qed.

Lemma subprocess_run_extends env P capture argv :
  P (EvRun capture argv) -> extends P (subprocess_run env capture argv).
Proof.
  intros H t. unfold subprocess_run.
  destruct (run_process env t argv); eexists [_]; (split; [reflexivity|]);
    now repeat constructor.
Qed.

Lemma strip_attr_extends P x : extends P (strip_attr x).
Proof. destruct x; simpl; auto with effects. Qed.

Lemma log_external_output_extends (P : event -> Prop) out err lvl :
  (forall l m, P (EvLog AppLogger l m)) ->
  extends P (log_external_output out err lvl).
Proof.
  intros H. unfold log_external_output, log.
  apply extends_bind; [apply strip_attr_extends|intros o].
  apply extends_bind; [apply strip_attr_extends|intros e].
  apply extends_bind; [|intros _];
    match goal with |- context [String.eqb ?x ""] => destruct (String.eqb x "") end;
    auto using extends_emit with effects.
Qed.

Lemma get_latest_snapshot_num_extends (P : event -> Prop) env config :
  (forall l m, P (EvLog AppLogger l m)) ->
  P (EvRun true (snapper_argv config)) ->
  extends P (get_latest_snapshot_num env config).
Proof.
  intros Hlog Hrun. unfold get_latest_snapshot_num, log.
  apply extends_bind; [now apply subprocess_run_extends|intros snapper].
  apply extends_bind; [apply strip_attr_extends|intros out].
  destruct (negb (returncode snapper =? 0)); [|auto with effects].
  apply extends_bind; [apply strip_attr_extends|intros err].
  apply extends_bind.
  - destruct (contains "No permissions" err); now apply extends_emit.
  - intros _. apply extends_bind; [now apply log_external_output_extends|].
    intros _. auto with effects.
Qed.

Lemma get_snapshot_root_path_extends (P : event -> Prop) env remote config :
  (forall l m, P (EvLog AppLogger l m)) ->
  extends P (get_snapshot_root_path env remote config).
Proof.
  intros Hlog. unfold get_snapshot_root_path, log. cbv zeta.
  destruct (negb _ || negb _)%bool; [|auto with effects].
  apply extends_bind; [now apply extends_emit|intros _; auto with effects].
Qed.

Lemma get_snapshots_extends (P : event -> Prop) env path :
  (forall l m, P (EvLog AppLogger l m)) ->
  extends P (get_snapshots env path).
Proof.
  intros Hlog t. destruct (listdir env path) as [names|] eqn:Hls.
  - destruct (get_snapshots_result env path t Hls) as [new [E F]].
    exists new. rewrite E. split; [reflexivity|].
    eapply Forall_impl; [|exact F]. intros e [m ->]. apply Hlog.
  - unfold get_snapshots. rewrite Hls. exists []. split; [reflexivity|constructor].
Qed.

Lemma delete_event_not_root_warning env path e :
  delete_event env path e -> not_root_warning e.
Proof. intros H p. destruct H; discriminate. Qed.

Lemma retention_never_warns_about_root env max_keep latest snapshots :
  Forall (fun s : snapshot => path_eqb (snd s) root_path = false) snapshots ->
  extends not_root_warning (retention env max_keep latest snapshots).
Proof.
  intros Hnr. eapply extends_weaken; [|apply retention_extends].
  intros e [Hloop|[n Hsum]] p.
  - destruct Hloop as [num path Hs _ _|num path Hs Hp|num path e Hs _ Hd|num path Hs _];
      try discriminate.
    + rewrite Forall_forall in Hnr. specialize (Hnr _ Hs). simpl in Hnr.
      subst path. discriminate.
    + now apply (delete_event_not_root_warning Hd).
  - destruct Hsum as [->|[->| ->]]; discriminate.
Qed.

(** X9: [main] never logs the warning "Skipping ... since it resolves to
    the root path": every path it examines is a child of the snapshot
    directory, so the comparison with [PosixPath("/")] at line 241 is
    false at every iteration. *)
Theorem X9_main_never_skips_for_the_root_path :
  forall env config remote max_keep t,
    exists new,
      snd (main env config remote max_keep t) = new ++ t /\
      forall p, ~ In (EvLog RootLogger WARNING (MsgSkipRoot p)) new.
Proof.
  intros env config remote max_keep t.
  assert (Hlog : forall l m, not_root_warning (EvLog AppLogger l m))
    by (intros l m p; discriminate).
  assert (H : extends not_root_warning (main env config remote max_keep)).
  { unfold main. destruct (negb (max_keep >=? 0)); [auto with effects|].
    unfold log. apply extends_bind.
    { destruct (max_keep =? 0); [|auto with effects].
      apply extends_emit. intros p. discriminate. }
    intros _. apply extends_bind.
    { apply get_latest_snapshot_num_extends; [exact Hlog|]. intros p. discriminate. }
    intros latest. apply extends_bind; [now apply extends_emit|intros _].
    apply extends_bind; [now apply get_snapshot_root_path_extends|intros root].
    apply extends_bind_result; [now apply get_snapshots_extends|].
    intros snapshots t0 t1 Hsn.
    apply extends_bind; [now apply extends_emit|intros _].
    apply retention_never_warns_about_root.
    eapply Permutation_Forall; [symmetry; apply sort_by_num_perm|].
    exact (get_snapshots_never_root env root t0 Hsn). }
  destruct (H t) as [new [E F]]. exists new. split; [exact E|].
  intros p Hin. rewrite Forall_forall in F. exact (F _ Hin p eq_refl).
Qed.

Lemma subprocess_run_exits_only_1 env capture argv :
  avoids exits_other_than_1 (subprocess_run env capture argv).
Proof.
  intros t a Ha [c [-> _]]. unfold subprocess_run in Ha.
  destruct (run_process env t argv); discriminate.
Qed.

Lemma strip_attr_exits_only_1 x : avoids exits_other_than_1 (strip_attr x).
Proof.
  destruct x; simpl; [apply avoids_ret|apply avoids_raise].
  intros [c [H _]]. discriminate.
Qed.

Lemma exit_1_allowed : ~ exits_other_than_1 (AExit 1).
Proof. intros [c [H Hc]]. injection H as <-. now apply Hc. Qed.

#[local] Hint Resolve subprocess_run_exits_only_1 strip_attr_exits_only_1 : effects.

Lemma log_external_output_exits_only_1 out err lvl :
  avoids exits_other_than_1 (log_external_output out err lvl).
Proof.
  unfold log_external_output, log. avoids_seq.
  apply avoids_bind; [|intros _ _ _ _];
    match goal with |- context [String.eqb ?x ""] => destruct (String.eqb x "") end;
    auto with effects.
Qed.

#[local] Hint Resolve log_external_output_exits_only_1 : effects.

Lemma get_latest_snapshot_num_exits_only_1 env config :
  avoids exits_other_than_1 (get_latest_snapshot_num env config).
Proof.
  unfold get_latest_snapshot_num, log. avoids_seq.
  match goal with |- context [negb ?b] => destruct (negb b) end;
    [|auto with effects].
  avoids_seq. apply avoids_bind.
  - match goal with |- context [contains ?p ?x] => destruct (contains p x) end;
      auto with effects.
  - intros _ _ _ _. avoids_seq. apply avoids_exit, exit_1_allowed.
Qed.

Lemma retention_exits_only_1 env max_keep latest snapshots :
  avoids exits_other_than_1 (retention env max_keep latest snapshots).
Proof.
  unfold retention. apply avoids_bind.
  - eapply avoids_weaken; [|apply retention_loop_no_exit].
    intros a [c [-> _]]. eauto.
  - intros [dc da] _ _ _. unfold log. avoids_seq.
    destruct (da >? dc); [apply avoids_exit, exit_1_allowed|auto with effects].
Qed.

(** X10: whatever the environment does, [main] ends with exit status 0 or
    1: it calls [exit] with no other code than 1, an exception that
    escapes gives status 1, and the status is 0 exactly when [main] runs
    to its end. *)
Theorem X10_main_exit_status_is_0_or_1 :
  forall env config remote max_keep t,
    (forall c, fst (main env config remote max_keep t) = Exit c -> c = 1)
    /\ (exit_status (fst (main env config remote max_keep t)) = 0 \/
        exit_status (fst (main env config remote max_keep t)) = 1)
    /\ (exit_status (fst (main env config remote max_keep t)) = 0 <->
        fst (main env config remote max_keep t) = Ret tt).
Proof.
  intros env config remote max_keep t.
  assert (Hav : avoids exits_other_than_1 (main env config remote max_keep)).
  { unfold main. destruct (negb (max_keep >=? 0)).
    { apply avoids_raise. intros [c [H _]]. discriminate. }
    unfold log. apply avoids_bind.
    { destruct (max_keep =? 0); auto with effects. }
    intros _ _ _ _.
    apply avoids_bind; [apply get_latest_snapshot_num_exits_only_1|].
    intros latest _ _ _. avoids_seq.
    apply avoids_bind.
    { intros tr ab Hab.
      destruct (get_snapshot_root_path_run env remote config tr) as [Hrp|Hrp];
        rewrite Hrp in Hab; simpl in Hab; [discriminate|].
      injection Hab as <-. apply exit_1_allowed. }
    intros root _ _ _. apply avoids_bind.
    { intros tr ab Hab [c [-> _]]. unfold get_snapshots in Hab.
      destruct (listdir env root) as [names|].
      - destruct (get_snapshots_loop_run env root names [] tr) as [new [Egs _]].
        rewrite Egs in Hab. discriminate.
      - discriminate. }
    intros snapshots _ _ _. avoids_seq. apply retention_exits_only_1. }
  assert (H1 : forall c, fst (main env config remote max_keep t) = Exit c -> c = 1).
  { intros c Hc. destruct (Z.eq_dec c 1) as [|Hne]; [assumption|].
    exfalso. apply (Hav t (AExit c)); [now rewrite Hc|]. now exists c. }
  split; [exact H1|].
  destruct (fst (main env config remote max_keep t)) as [[]|c|e] eqn:E; simpl.
  - split; [now left|]. split; reflexivity.
  - rewrite (H1 c eq_refl). split; [now right|]. split; discriminate.
  - split; [now right|]. split; discriminate.
Qed.

(** ** The deleter, further *)

(** X11: whenever [delete_snapshot] returns a value, the path was
    absolute, the volume removal tool was run and exited with 0, [rmtree]
    was called on the snapshot directory, and the value is [True] exactly
    when [rmtree] succeeded; a [False] comes with the warning about the
    outer directory. A failure of the tool itself is never answered with
    [False]. *)
Theorem X11_delete_snapshot_returns_what_rmtree_did :
  forall env path t b t',
    delete_snapshot env path t = (Ret b, t') ->
    is_absolute path = true /\
    (exists out err, run_process env t (btrfs_argv path) = Exited 0 out err) /\
    b = rmtree_ok env (EvRun false (btrfs_argv path) :: t) (to_str path) /\
    (exists new, t' = new ++ t /\
                 pick rmtree_target new = [to_str path] /\
                 pick btrfs_target new = [child path "subvolume"] /\
                 (b = false <->
                  In (EvLog RootLogger WARNING (MsgFailedOuterDir path)) new)).
Proof.
  intros env path t b t' H. destruct (is_absolute path) eqn:Habs.
  - rewrite (delete_snapshot_run env path t Habs) in H. cbv zeta in H.
    destruct (run_process env t _) as [|rc out err] eqn:Hrun; [discriminate|].
    destruct (rc =? 0) eqn:Erc; [|discriminate].
    apply Z.eqb_eq in Erc. subst rc.
    split; [reflexivity|]. split; [eauto|].
    destruct (rmtree_ok env _ _) eqn:Erm; injection H as <- <-.
    + split; [reflexivity|]. eexists [_; _]. split; [reflexivity|].
      simpl. repeat split; try discriminate.
      intros [Hin|[Hin|[]]]; discriminate.
    + split; [reflexivity|]. eexists [_; _; _; _]. split; [reflexivity|].
      simpl. repeat split; auto.
  - rewrite (delete_snapshot_relative env path t Habs) in H. discriminate.
Qed.

Lemma X11_delete_snapshot_returns_what_rmtree_did_witness :
  is_absolute (child Sample.base "1") = true /\
  (exists out err,
      run_process Sample.rmtree_fails [] (btrfs_argv (child Sample.base "1"))
      = Exited 0 out err) /\
  false = rmtree_ok Sample.rmtree_fails
            [EvRun false (btrfs_argv (child Sample.base "1"))]
            (to_str (child Sample.base "1")) /\
  (exists new,
      snd (delete_snapshot Sample.rmtree_fails (child Sample.base "1") [])
      = new ++ [] /\
      pick rmtree_target new = [to_str (child Sample.base "1")] /\
      pick btrfs_target new = [child (child Sample.base "1") "subvolume"] /\
      (false = false <->
       In (EvLog RootLogger WARNING (MsgFailedOuterDir (child Sample.base "1"))) new)).
Proof.
  apply (X11_delete_snapshot_returns_what_rmtree_did
           Sample.rmtree_fails (child Sample.base "1") []).
  reflexivity.
Defined.

(** X12: the two stages of [delete_snapshot] keep their order: the tool
    is started at most once, on [path/subvolume] and only for an absolute
    path; [rmtree] is called at most once, on [path], and only after the
    tool exited with 0. For a relative path the assertion fails before
    anything is done. *)
Theorem X12_delete_snapshot_removes_directory_only_after_volume :
  forall env path t,
    exists new,
      snd (delete_snapshot env path t) = new ++ t /\
      (List.length (pick btrfs_target new) <= 1)%nat /\
      (List.length (pick rmtree_target new) <= 1)%nat /\
      (forall q, In q (pick btrfs_target new) ->
                 q = child path "subvolume" /\ is_absolute path = true) /\
      (forall s, In s (pick rmtree_target new) ->
                 s = to_str path /\
                 exists out err,
                   run_process env t (btrfs_argv path) = Exited 0 out err) /\
      (is_absolute path = false <->
       fst (delete_snapshot env path t) = Raise AssertionError) /\
      (is_absolute path = true \/ new = []).
Proof.
  intros env path t.
  assert (Hsolve : forall new : list event,
             Forall (fun e => btrfs_target e = None \/
                              (btrfs_target e = Some (child path "subvolume") /\
                               is_absolute path = true)) new ->
             Forall (fun e => rmtree_target e = None \/
                              (rmtree_target e = Some (to_str path) /\
                               exists out err,
                                 run_process env t (btrfs_argv path)
                                 = Exited 0 out err)) new ->
             (forall q, In q (pick btrfs_target new) ->
                        q = child path "subvolume" /\ is_absolute path = true) /\
             (forall s, In s (pick rmtree_target new) ->
                        s = to_str path /\
                        exists out err,
                          run_process env t (btrfs_argv path) = Exited 0 out err)).
  { intros new Hb Hr. rewrite Forall_forall in Hb, Hr. split.
    - intros q Hq. apply in_pick in Hq as [e [He Hq]].
      destruct (Hb e He) as [Hn|[Hs Ha]]; [congruence|]. split; congruence.
    - intros s Hs. apply in_pick in Hs as [e [He Hs]].
      destruct (Hr e He) as [Hn|[Hs' Ha]]; [congruence|]. split; congruence. }
  assert (Hfinish : forall (o : outcome bool) (new : list event),
             (List.length (pick btrfs_target new) <= 1)%nat ->
             (List.length (pick rmtree_target new) <= 1)%nat ->
             Forall (fun e => btrfs_target e = None \/
                              (btrfs_target e = Some (child path "subvolume") /\
                               is_absolute path = true)) new ->
             Forall (fun e => rmtree_target e = None \/
                              (rmtree_target e = Some (to_str path) /\
                               exists out err,
                                 run_process env t (btrfs_argv path)
                                 = Exited 0 out err)) new ->
             (is_absolute path = false <-> o = Raise AssertionError) ->
             (is_absolute path = true \/ new = []) ->
             exists new',
               snd (o, new ++ t) = new' ++ t /\
               (List.length (pick btrfs_target new') <= 1)%nat /\
               (List.length (pick rmtree_target new') <= 1)%nat /\
               (forall q, In q (pick btrfs_target new') ->
                          q = child path "subvolume" /\ is_absolute path = true) /\
               (forall s, In s (pick rmtree_target new') ->
                          s = to_str path /\
                          exists out err,
                            run_process env t (btrfs_argv path) = Exited 0 out err) /\
               (is_absolute path = false <-> fst (o, new ++ t) = Raise AssertionError) /\
               (is_absolute path = true \/ new' = [])).
  { intros o new L1 L2 Fb Fr Ha Hn. exists new.
    destruct (Hsolve new Fb Fr) as [H1 H2].
    split; [reflexivity|]. split; [exact L1|]. split; [exact L2|].
    split; [exact H1|]. split; [exact H2|]. split; [exact Ha|exact Hn]. }
  destruct (is_absolute path) eqn:Habs.
  - rewrite (delete_snapshot_run env path t Habs). cbv zeta.
    destruct (run_process env t _) as [|rc out err] eqn:Hrun;
      [|destruct (rc =? 0) eqn:Erc;
        [apply Z.eqb_eq in Erc; subst rc; destruct (rmtree_ok env _ _)|]].
    + apply (Hfinish _ [EvRun false (btrfs_argv path)]);
        try (simpl; lia); try (split; discriminate); try (now left);
        repeat (constructor; [first [left; reflexivity|right; split; [reflexivity|eauto]]|]);
        constructor.
    + apply (Hfinish _ [EvRmtree (to_str path); EvRun false (btrfs_argv path)]);
        try (simpl; lia); try (split; discriminate); try (now left);
        repeat (constructor; [first [left; reflexivity|right; split; [reflexivity|eauto]]|]);
        constructor.
    + apply (Hfinish _ [EvLog AppLogger DEBUG MsgException;
                        EvLog RootLogger WARNING (MsgFailedOuterDir path);
                        EvRmtree (to_str path); EvRun false (btrfs_argv path)]);
        try (simpl; lia); try (split; discriminate); try (now left);
        repeat (constructor; [first [left; reflexivity|right; split; [reflexivity|eauto]]|]);
        constructor.
    + apply (Hfinish _ [EvLog AppLogger ERROR (MsgFailedSubvolume (child path "subvolume"));
                        EvRun false (btrfs_argv path)]);
        try (simpl; lia); try (split; discriminate); try (now left);
        repeat (constructor; [first [left; reflexivity|right; split; [reflexivity|eauto]]|]);
        constructor.
  - rewrite (delete_snapshot_relative env path t Habs).
    apply (Hfinish _ []); try (simpl; lia); try (now right); try (now split);
      constructor.
Qed.

(** ** The retention loop, further *)

(** X13: when the volume removal tool does not exit with 0 on an eligible
    snapshot, the exception leaves the loop: the run ends there, in
    [OSError] when the tool could not be started and in [AttributeError]
    when it exited non-zero, after the one call of the tool; [rmtree] is
    not called and none of the later snapshots is visited. *)
Theorem X13_failing_volume_removal_ends_the_loop :
  forall env total max_keep latest delete_count delete_attempts
         num path rest t,
    max_keep < total - delete_attempts ->
    eligible max_keep latest (num, path) = true ->
    is_absolute path = true ->
    (forall out err, run_process env t (btrfs_argv path) <> Exited 0 out err) ->
    exists e new,
      retention_loop env total max_keep latest delete_count delete_attempts
                     ((num, path) :: rest) t
      = (Raise e, new ++ t) /\
      (e = OSError \/ e = AttributeError) /\
      pick btrfs_target new = [child path "subvolume"] /\
      pick rmtree_target new = [] /\
      (List.length new <= 2)%nat.
Proof.
  intros env total max_keep latest dc da num path rest t Hg Hel Habs Hrun.
  simpl retention_loop.
  assert (Eg : (total - da <=? max_keep) = false) by (apply Z.leb_gt; lia).
  rewrite Eg. unfold eligible in Hel. simpl in Hel.
  apply andb_true_iff in Hel as [H1 H2].
  apply negb_true_iff in H1, H2. rewrite H1, H2.
  unfold bind at 1. rewrite (delete_snapshot_run env path t Habs). cbv zeta.
  destruct (run_process env t (btrfs_argv path)) as [|rc out err] eqn:E.
  - exists OSError. eexists [_]. split; [reflexivity|]. simpl. auto.
  - destruct (rc =? 0) eqn:Erc.
    + apply Z.eqb_eq in Erc. subst rc. now contradiction (Hrun out err).
    + exists AttributeError. eexists [_; _]. split; [reflexivity|]. simpl. auto.
Qed.

Lemma X13_failing_volume_removal_ends_the_loop_witness :
  exists e new,
    retention_loop Sample.btrfs_fails 5 2 (Some 5) 0 0 Sample.five []
    = (Raise e, new ++ []) /\
    (e = OSError \/ e = AttributeError) /\
    pick btrfs_target new = [child (child Sample.base "1") "subvolume"] /\
    pick rmtree_target new = [] /\
    (List.length new <= 2)%nat.
Proof.
  apply (@X13_failing_volume_removal_ends_the_loop
           Sample.btrfs_fails 5 2 (Some 5) 0 0 1 (child Sample.base "1")
           [Sample.snap 2 "2"; Sample.snap 3 "3"; Sample.snap 4 "4"; Sample.snap 5 "5"]
           []).
  - lia.
  - reflexivity.
  - reflexivity.
  - intros out err. discriminate.
Defined.

Lemma subseq_nil_l {A} (l : list A) : subseq [] l.
Proof. induction l; constructor; assumption. Qed.

Lemma subseq_in {A} (l1 l2 : list A) x : subseq l1 l2 -> In x l1 -> In x l2.
Proof.
  induction 1 as [|y l1 l2 _ IH|y l1 l2 _ IH]; simpl; intros H.
  - exact H.
  - right. now apply IH.
  - destruct H as [->|H]; [now left|right; now apply IH].
Qed.

Lemma subseq_length {A} (l1 l2 : list A) :
  subseq l1 l2 -> (List.length l1 <= List.length l2)%nat.
Proof. induction 1; simpl; lia. Qed.

Lemma subseq_strongly_sorted {A} (R : A -> A -> Prop) (l1 l2 : list A) :
  subseq l1 l2 -> StronglySorted R l2 -> StronglySorted R l1.
Proof.
  induction 1 as [|y l1 l2 Hs IH|y l1 l2 Hs IH]; intros H.
  - constructor.
  - inversion H; subst. now apply IH.
  - inversion H as [|? ? Hl Hy]; subst. constructor; [now apply IH|].
    rewrite Forall_forall in *. intros x Hx. apply Hy.
    eapply subseq_in; eassumption.
Qed.

Lemma delete_event_reports_nothing env path e :
  delete_event env path e -> deleted_num e = None.
Proof. now destruct 1. Qed.

(** The numbers the loop reports as deleted are numbers of [rest], in the
    order of [rest], and [delete_count] grows by their count. *)
Lemma retention_loop_deleted env total max_keep latest rest :
  forall dc da t o t',
    retention_loop env total max_keep latest dc da rest t = (o, t') ->
    exists new,
      t' = new ++ t /\
      subseq (pick deleted_num (rev new)) (map fst rest) /\
      forall dc' da',
        o = Ret (dc', da') ->
        dc' = dc + Z.of_nat (List.length (pick deleted_num (rev new))).
Proof.
  induction rest as [|[num path] rest IH]; intros dc da t o t'.
  - simpl. unfold ret. intros H. injection H as <- <-.
    exists []. repeat split; [constructor|].
    intros dc' da' H. injection H as <- _. simpl. lia.
  - simpl retention_loop. destruct (total - da <=? max_keep).
    { unfold ret. intros H. injection H as <- <-.
      exists []. repeat split; [apply subseq_nil_l|].
      intros dc' da' H. injection H as <- _. simpl. lia. }
    destruct (num_is_latest num latest && (max_keep >? 0))%bool.
    { unfold bind, log, emit. intros H.
      destruct (IH _ _ _ _ _ H) as (new & -> & Hs & Hc).
      exists (new ++ [EvLog AppLogger DEBUG (MsgSkipLatest num)]).
      rewrite <- app_assoc, rev_app_distr. simpl.
      repeat split; [now constructor|exact Hc]. }
    destruct (path_eqb path root_path).
    { unfold bind, log, emit. intros H.
      destruct (IH _ _ _ _ _ H) as (new & -> & Hs & Hc).
      exists (new ++ [EvLog RootLogger WARNING (MsgSkipRoot path)]).
      rewrite <- app_assoc, rev_app_distr. simpl.
      repeat split; [now constructor|exact Hc]. }
    unfold bind at 1.
    destruct (delete_snapshot_extends env path t) as (nd & Ed & Fd).
    assert (Hnd : pick deleted_num (rev nd) = []).
    { apply pick_none, Forall_rev. eapply Forall_impl; [|exact Fd].
      intros e. apply delete_event_reports_nothing. }
    destruct (delete_snapshot env path t) as [[[|]|c|e] t1]; simpl in Ed; subst t1.
    + unfold bind, log, emit. intros H.
      destruct (IH _ _ _ _ _ H) as (new & -> & Hs & Hc).
      exists (new ++ EvLog AppLogger INFO (MsgDeleted num) :: nd).
      rewrite <- app_assoc, rev_app_distr. simpl rev.
      rewrite !pick_app, Hnd. simpl.
      repeat split; [now constructor|].
      intros dc' da' Ho. rewrite (Hc _ _ Ho). lia.
    + intros H. destruct (IH _ _ _ _ _ H) as (new & -> & Hs & Hc).
      exists (new ++ nd). rewrite <- app_assoc, rev_app_distr.
      rewrite !pick_app, Hnd. simpl.
      repeat split; [now constructor|exact Hc].
    + intros H. injection H as <- <-.
      exists nd. rewrite Hnd. repeat split; [apply subseq_nil_l|discriminate].
    + intros H. injection H as <- <-.
      exists nd. rewrite Hnd. repeat split; [apply subseq_nil_l|discriminate].
Qed.

Lemma loop_event_not_successful_deletes env max_keep latest rest n :
  ~ loop_event env max_keep latest rest (EvLog AppLogger INFO (MsgSuccessfulDeletes n)).
Proof.
  intros H. inversion H as [| |num path e Hin Hel Hd|]. inversion Hd.
Qed.

(** X14: the number [retention] reports as "Successful deletes" is the
    number of snapshots it reported as deleted during the run, and lies
    between 0 and the number of snapshots. *)
Theorem X14_reported_count_matches_reported_deletions :
  forall env max_keep latest snapshots t,
    exists new,
      snd (retention env max_keep latest snapshots t) = new ++ t /\
      forall n,
        In (EvLog AppLogger INFO (MsgSuccessfulDeletes n)) new ->
        n = Z.of_nat (List.length (pick deleted_num new)) /\
        0 <= n <= Z.of_nat (List.length snapshots).
Proof.
  intros env max_keep latest snapshots t.
  destruct (retention_loop_extends env (Z.of_nat (List.length snapshots))
              max_keep latest snapshots 0 0 t) as (ln & El & Fl).
  destruct (retention_loop_deleted env (Z.of_nat (List.length snapshots))
              max_keep latest snapshots 0 0 t (surjective_pairing _))
    as (ln' & El' & Hs & Hc).
  assert (ln' = ln) by (rewrite El in El'; now apply app_inv_tail in El').
  subst ln'. clear El'.
  assert (Hln : forall n, ~ In (EvLog AppLogger INFO (MsgSuccessfulDeletes n)) ln).
  { intros n Hin. rewrite Forall_forall in Fl.
    exact (loop_event_not_successful_deletes (Fl _ Hin)). }
  assert (Hlen : (List.length (pick deleted_num ln) <= List.length snapshots)%nat).
  { apply subseq_length in Hs. rewrite pick_rev, length_rev, length_map in Hs.
    exact Hs. }
  unfold retention, bind.
  destruct (retention_loop env _ max_keep latest 0 0 snapshots t)
    as [[[dc da]|c|e] t1] eqn:E; simpl in El; subst t1.
  - specialize (Hc dc da eq_refl). rewrite pick_rev, length_rev in Hc.
    unfold log, emit. simpl.
    destruct (da >? dc); unfold exit_, ret; simpl;
      (eexists (_ :: _ :: _ :: ln); split; [reflexivity|]);
      (intros n [Hn|[Hn|[Hn|Hn]]]; try discriminate;
       [injection Hn as <-; simpl; lia|now apply Hln in Hn]).
  - exists ln. split; [reflexivity|]. intros n Hn. now apply Hln in Hn.
  - exists ln. split; [reflexivity|]. intros n Hn. now apply Hln in Hn.
Qed.

Lemma sort_by_num_strongly_sorted (l : list snapshot) :
  StronglySorted Z.le (map fst (sort_by_num l)).
Proof.
  assert (H : StronglySorted num_le (sort_by_num l)).
  { apply Sorted_StronglySorted; [|apply sort_by_num_sorted].
    intros a b c. unfold num_le. lia. }
  induction H as [|a l' _ IH Ha]; simpl; constructor; [exact IH|].
  apply Forall_map. exact Ha.
Qed.

(** X15: sorting and then looping deletes oldest first: the numbers
    reported as deleted, in the order of the reports, are taken from the
    sorted numbers of the snapshots without changing their order, and so
    they ascend. *)
Theorem X15_deletions_are_reported_in_ascending_order :
  forall env max_keep latest snapshots t,
    exists new,
      snd (retention env max_keep latest (sort_by_num snapshots) t) = new ++ t /\
      subseq (pick deleted_num (rev new)) (map fst (sort_by_num snapshots)) /\
      StronglySorted Z.le (pick deleted_num (rev new)) /\
      (forall n, In n (pick deleted_num (rev new)) -> In n (map fst snapshots)).
Proof.
  intros env max_keep latest snapshots t.
  set (sorted := sort_by_num snapshots).
  destruct (retention_loop_deleted env (Z.of_nat (List.length sorted))
              max_keep latest sorted 0 0 t (surjective_pairing _))
    as (ln & El & Hs & _).
  assert (Hgoal : forall new,
             pick deleted_num (rev new) = pick deleted_num (rev ln) ->
             subseq (pick deleted_num (rev new)) (map fst sorted) /\
             StronglySorted Z.le (pick deleted_num (rev new)) /\
             (forall n, In n (pick deleted_num (rev new)) -> In n (map fst snapshots))).
  { intros new ->. split; [exact Hs|]. split.
    - eapply subseq_strongly_sorted; [exact Hs|apply sort_by_num_strongly_sorted].
    - intros n Hn. apply (subseq_in n Hs) in Hn.
      eapply Permutation_in; [|exact Hn]. apply Permutation_map, sort_by_num_perm. }
  unfold retention, bind. fold sorted.
  destruct (retention_loop env _ max_keep latest 0 0 sorted t)
    as [[[dc da]|c|e] t1] eqn:E; simpl in El; subst t1.
  - unfold log, emit. simpl.
    destruct (da >? dc); unfold exit_, ret; simpl;
      (eexists (_ :: _ :: _ :: ln); split; [reflexivity|]);
      apply Hgoal; simpl; rewrite !pick_app; simpl; now rewrite !app_nil_r.
  - exists ln. split; [reflexivity|]. now apply Hgoal.
  - exists ln. split; [reflexivity|]. now apply Hgoal.
Qed.

(** X16: as the loop is written, once more snapshots were found than
    [max_keep] and every deletion works, [retention] deletes every
    snapshot that is not skipped (for carrying the latest number while
    [max_keep > 0], or for being the path [/]), in order, reports that
    count and ends normally: what is left are the skipped snapshots only,
    however large [max_keep] is. *)
Theorem X16_every_eligible_snapshot_is_deleted :
  forall env max_keep latest snapshots t,
    tools_succeed env ->
    Forall (fun s : snapshot => is_absolute (snd s) = true) snapshots ->
    max_keep < Z.of_nat (List.length snapshots) ->
    exists new,
      retention env max_keep latest snapshots t = (Ret tt, new ++ t) /\
      pick deleted_num (rev new)
      = map fst (filter (eligible max_keep latest) snapshots) /\
      pick btrfs_target (rev new)
      = map (fun s : snapshot => child (snd s) "subvolume")
            (filter (eligible max_keep latest) snapshots) /\
      In (EvLog AppLogger INFO
            (MsgSuccessfulDeletes
               (Z.of_nat (List.length (filter (eligible max_keep latest) snapshots)))))
         new.
Proof.
  intros env max_keep latest snapshots t Htools Habs Hk.
  destruct (retention_loop_deletes_every_eligible latest Htools Habs Hk 0 t)
    as (ln & E & Hd & Hb).
  unfold retention, bind. rewrite E. unfold log, emit. cbn [Z.add].
  assert (Hgt : (0 >? Z.of_nat (List.length (filter (eligible max_keep latest) snapshots)))
                = false) by (rewrite Z.gtb_ltb; apply Z.ltb_ge; lia).
  cbv beta iota. rewrite Hgt. unfold ret.
  eexists (_ :: _ :: _ :: ln). split; [reflexivity|].
  simpl rev. rewrite !pick_app. simpl. rewrite !app_nil_r.
  split; [exact Hd|]. split; [exact Hb|]. right. right. now left.
Qed.

Lemma X16_every_eligible_snapshot_is_deleted_witness :
  exists new,
    retention Sample.all_ok 2 (Some 5) Sample.five [] = (Ret tt, new ++ []) /\
    pick deleted_num (rev new)
    = map fst (filter (eligible 2 (Some 5)) Sample.five) /\
    pick btrfs_target (rev new)
    = map (fun s : snapshot => child (snd s) "subvolume")
          (filter (eligible 2 (Some 5)) Sample.five) /\
    In (EvLog AppLogger INFO
          (MsgSuccessfulDeletes
             (Z.of_nat (List.length (filter (eligible 2 (Some 5)) Sample.five)))))
       new.
Proof.
  apply (@X16_every_eligible_snapshot_is_deleted
           Sample.all_ok 2 (Some 5) Sample.five []).
  - split.
    + intros h argv. simpl. destruct (Sample.is_snapper argv); eauto.
    + reflexivity.
  - repeat constructor.
  - simpl. lia.
Defined.

(** ** The sort *)

(** X17: the sort of line 225 rearranges the snapshots without losing or
    adding any, puts their numbers in ascending order, and keeps
    snapshots of equal number in the order they had. *)
Theorem X17_sort_is_a_stable_ascending_rearrangement :
  forall (snapshots : list snapshot),
    Permutation (sort_by_num snapshots) snapshots
    /\ StronglySorted Z.le (map fst (sort_by_num snapshots))
    /\ List.length (sort_by_num snapshots) = List.length snapshots
    /\ forall k,
         filter (fun s : snapshot => fst s =? k) (sort_by_num snapshots)
         = filter (fun s : snapshot => fst s =? k) snapshots.
Proof.
  intros snapshots. split; [apply sort_by_num_perm|].
  split; [apply sort_by_num_strongly_sorted|].
  split; [apply sort_by_num_length|]. intros k. apply sort_by_num_stable.
Qed.

(** ** The latest marker, further *)

Lemma startswith_space (line : string) :
  startswith " " line = true -> split_space_head line = EmptyString.
Proof.
  destruct line as [|c r]; [discriminate|].
  change (startswith " " (String c r))
    with (Ascii.eqb " " c && startswith EmptyString r)%bool.
  intros H. apply andb_true_iff in H as [H _].
  apply Ascii.eqb_eq in H. subst c. reflexivity.
Qed.

(** X18: only lines that contain the marker and do not begin with a
    space can give the latest number: the scan of lines 106-117 gives the
    same result on the listing and on what is left of it when all other
    lines are removed. A marked line with a leading space has an empty
    first token, which [int()] rejects. *)
Theorem X18_only_marked_lines_without_leading_space_count :
  forall (lines : list string),
    scan_latest lines = scan_latest (filter candidate_line lines).
Proof.
  induction lines as [|line lines IH]; [reflexivity|].
  cbn [scan_latest filter]. unfold candidate_line at 1.
  destruct (contains marker line) eqn:Ec; cbn [negb andb]; [|exact IH].
  destruct (startswith " " line) eqn:Es; cbn [negb].
  - rewrite (startswith_space line Es).
    change (Py.int EmptyString) with (@None Z). exact IH.
  - cbn [scan_latest]. rewrite Ec. cbn [negb]. now rewrite IH.
Qed.

(** ** Few snapshots *)

Lemma retention_within_keep env max_keep latest snapshots t :
  Z.of_nat (List.length snapshots) <= max_keep ->
  retention env max_keep latest snapshots t
  = (Ret tt,
     [EvLog AppLogger INFO (MsgTotal (Z.of_nat (List.length snapshots)));
      EvLog AppLogger INFO (MsgDeleteAttempts 0);
      EvLog AppLogger INFO (MsgSuccessfulDeletes 0)] ++ t).
Proof.
  intros H. unfold retention, bind.
  assert (E : retention_loop env (Z.of_nat (List.length snapshots)) max_keep latest
                             0 0 snapshots t = (Ret (0, 0), t)).
  { destruct snapshots as [|[num path] rest]; [reflexivity|].
    cbn [retention_loop]. rewrite Z.sub_0_r.
    apply Z.leb_le in H. now rewrite H. }
  rewrite E. reflexivity.
Qed.

(** X19: when the snapshot directory holds no more entries than
    [max_keep], [main] deletes nothing: after the listing and the scan it
    logs the summary with 0 successful deletes and runs to its end
    (status 0), having started neither the volume removal tool nor
    [rmtree]. *)
Theorem X19_nothing_is_deleted_within_max_keep :
  forall env config remote max_keep t out err names,
    0 <= max_keep ->
    (forall h, run_process env h (snapper_argv config) = Exited 0 out err) ->
    let path := absolute (getcwd env) (from_segments [remote; config]) in
    (path_exists env path && path_is_dir env path)%bool = true ->
    listdir env path = Some names ->
    Z.of_nat (List.length names) <= max_keep ->
    exists new,
      main env config remote max_keep t = (Ret tt, new ++ t) /\
      deletion_free new /\
      In (EvLog AppLogger INFO (MsgSuccessfulDeletes 0)) new.
Proof.
  intros env config remote max_keep t out err names Hk Hrun path Hfound Hls Hlen.
  destruct (max_keep_warning max_keep t) as [pre [Epre Fpre]].
  rewrite (main_run env config remote t Hk). cbv zeta.
  rewrite (get_latest_snapshot_num_ok env config _ (Hrun _)).
  rewrite (get_snapshot_root_path_found env remote config _ Hfound).
  fold path.
  destruct (get_snapshots_result env path
              (EvLog AppLogger INFO
                 (MsgLatest (scan_latest (rev (splitlines (strip out)))))
               :: EvRun true (snapper_argv config)
               :: (if max_keep =? 0
                   then EvLog RootLogger WARNING MsgMaxKeepZero :: t else t))
              Hls) as [nd [Ed Fd]].
  rewrite Ed, retention_within_keep.
  2: { rewrite sort_by_num_length.
       pose proof (pick_length (entry_snapshot env path) names). lia. }
  rewrite Epre.
  eexists (_ :: _ :: _ :: _ :: nd ++ _ :: _ :: pre). split.
  - simpl. rewrite <- app_assoc. reflexivity.
  - split; [|right; right; now left].
    repeat apply deletion_free_log. apply deletion_free_app.
    + eapply Forall_impl; [|exact Fd]. intros e [m ->].
      split; [reflexivity|discriminate].
    + apply deletion_free_log, deletion_free_snapper, Fpre.
Qed.

Lemma X19_nothing_is_deleted_within_max_keep_witness :
  exists new,
    main Sample.all_ok "root" "/mnt/backup" 7 [] = (Ret tt, new ++ []) /\
    deletion_free new /\
    In (EvLog AppLogger INFO (MsgSuccessfulDeletes 0)) new.
Proof.
  apply (@X19_nothing_is_deleted_within_max_keep
           Sample.all_ok "root" "/mnt/backup" 7 [] Sample.listing "" Sample.dir_names).
  - lia.
  - intros h. reflexivity.
  - reflexivity.
  - reflexivity.
  - simpl. lia.
Defined.
